(** * Chem-E-Care: the orchestrator, alert, todo and persistence core of app.py

    A shallow embedding of the logic of [src/app.py] (a Streamlit dashboard)
    and the properties its specification states about it.

    Python values are modelled as they are at run time:
    - a [str] is its sequence of Unicode code points ([list N]), because
      [str.strip] and [str.splitlines] are defined per code point;
    - a [dict] is a finite map [gmap] from [str] keys to values, so that two
      dicts are equal exactly when they hold the same items (Python's [==]);
    - the dicts of events are heap objects: the session's event list, the
      decision log and the alerts hold references to them, and
      [event['status'] = outcome] updates the object every reference sees;
    - an exception is a value of [result]; [try ... except Exception] is a
      match on it;
    - readings of the environment ([time.time()], [datetime.now()],
      [random.random()], the LLM's answer) are arguments. *)

From Stdlib Require Import ZArith NArith Ascii String DecimalString.
From stdpp Require Import gmap strings list fin_maps.

Local Open Scope Z_scope.

(** ** Python strings *)

Abbreviation pystr := (list N).

(** The code points of a literal of the source (all literals of the source
    that the model uses are ASCII). *)
Definition lit (s : string) : pystr :=
  N_of_ascii <$> list_ascii_of_string s.

(** [str(n)] for an int [n], as used by an f-string. *)
Definition str_of_int (n : Z) : pystr :=
  lit (NilZero.string_of_int (Z.to_int n)).

(** The characters [str.strip()] removes: those for which [str.isspace] holds. *)
Definition is_space (c : N) : bool :=
  ((9 <=? c) && (c <=? 13) || (28 <=? c) && (c <=? 32)
   || (c =? 133) || (c =? 160) || (c =? 5760)
   || (8192 <=? c) && (c <=? 8202)
   || (c =? 8232) || (c =? 8233) || (c =? 8239) || (c =? 8287)
   || (c =? 12288))%N.

(** The line boundaries of [str.splitlines()]: LF, VT, FF, CR, FS, GS, RS,
    NEL, LS and PS ([CR LF] counts as one boundary). *)
Definition is_linebreak (c : N) : bool :=
  ((10 <=? c) && (c <=? 13) || (28 <=? c) && (c <=? 30)
   || (c =? 133) || (c =? 8232) || (c =? 8233))%N.

Fixpoint lstrip (s : pystr) : pystr :=
  match s with
  | c :: r => if is_space c then lstrip r else s
  | [] => []
  end.

Definition rstrip (s : pystr) : pystr := rev (lstrip (rev s)).

(** [s.strip()] *)
Definition strip (s : pystr) : pystr := rstrip (lstrip s).

(** [s.startswith(p)] *)
Fixpoint startswith (p s : pystr) : bool :=
  match p, s with
  | [], _ => true
  | a :: p', b :: s' => (a =? b)%N && startswith p' s'
  | _ :: _, [] => false
  end.

(** [sub in s] for two strings. *)
Fixpoint contains (sub s : pystr) : bool :=
  startswith sub s ||
  match s with
  | [] => false
  | _ :: r => contains sub r
  end.

(** [s.splitlines()]: [cur] holds, reversed, the characters read since the
    last boundary; a final line without boundary is kept, an empty rest
    after a boundary is not. *)
Fixpoint splitlines_from (cur : pystr) (s : pystr) : list pystr :=
  match s with
  | [] => match cur with [] => [] | _ => [rev cur] end
  | c :: r =>
      if is_linebreak c then
        match c, r with
        | 13%N, 10%N :: r' => rev cur :: splitlines_from [] r'
        | _, _ => rev cur :: splitlines_from [] r
        end
      else splitlines_from (c :: cur) r
  end.

Definition splitlines (s : pystr) : list pystr := splitlines_from [] s.

(** [s.split(sep)] for a separator of one character: one more part than
    there are separators, never an empty list. *)
Fixpoint split (sep : N) (s : pystr) : list pystr :=
  match s with
  | [] => [[]]
  | c :: r =>
      if (c =? sep)%N then [] :: split sep r
      else match split sep r with
           | h :: t => (c :: h) :: t
           | [] => [[c]]
           end
  end.

(** [s.replace(old, new)] for a non-empty [old]: occurrences are found left
    to right and do not overlap. [skip] counts the characters of the
    occurrence being removed that are still to be dropped. *)
Fixpoint replace_from (old new : pystr) (skip : nat) (s : pystr) : pystr :=
  match s with
  | [] => []
  | c :: r =>
      match skip with
      | S k => replace_from old new k r
      | O =>
          if startswith old s
          then new ++ replace_from old new (pred (length old)) r
          else c :: replace_from old new O r
      end
  end.

Definition replace (old new : pystr) (s : pystr) : pystr :=
  match old with
  | [] => new ++ flat_map (fun c => c :: new) s
  | _ :: _ => replace_from old new O s
  end.

(** ** Exceptions *)

Inductive exn :=
| IndexError | KeyError | TypeError | AttributeError | ValueError
| FileNotFoundError | JSONDecodeError.

Inductive result (A : Type) :=
| Ok (a : A)
| Raise (e : exn).
Arguments Ok {A} a.
Arguments Raise {A} e.

#[global] Instance result_ret : MRet result := fun _ a => Ok a.
#[global] Instance result_bind : MBind result := fun _ _ k m =>
  match m with
  | Ok a => k a
  | Raise e => Raise e
  end.

(** [l[i]] on a list: out of range raises IndexError. *)
Definition index {A} (l : list A) (i : nat) : result A :=
  match l !! i with
  | Some x => Ok x
  | None => Raise IndexError
  end.

(** ** Python values *)

(** A naive [datetime] object (the application creates them with
    [datetime.now()] only). Every datetime object satisfies
    [valid_datetime]; the constructor of the class refuses other fields. *)
Record datetime := mk_datetime {
  year : Z; month : Z; day : Z;
  hour : Z; minute : Z; second : Z; microsecond : Z
}.

Definition is_leap (y : Z) : bool :=
  (y mod 4 =? 0) && (negb (y mod 100 =? 0) || (y mod 400 =? 0)).

Definition days_in_month (y m : Z) : Z :=
  if m =? 2 then (if is_leap y then 29 else 28)
  else if (m =? 4) || (m =? 6) || (m =? 9) || (m =? 11) then 30
  else 31.

Definition valid_datetime (d : datetime) : bool :=
  (1 <=? year d) && (year d <=? 9999)
  && (1 <=? month d) && (month d <=? 12)
  && (1 <=? day d) && (day d <=? days_in_month (year d) (month d))
  && (0 <=? hour d) && (hour d <? 24)
  && (0 <=? minute d) && (minute d <? 60)
  && (0 <=? second d) && (second d <? 60)
  && (0 <=? microsecond d) && (microsecond d <? 1000000).

(** Values: what [json.load] returns (None, bool, int, float, str, list,
    dict with str keys) and datetime objects. A float is a finite one,
    named by an integer code that determines it (its binary64 bit pattern):
    the only floats of the application are readings of [time.time()], on
    which [==] is equality of the codes. *)
#[warnings="-register-all"]
Inductive pyval :=
| PNone
| PBool (b : bool)
| PInt (n : Z)
| PFloat (code : Z)
| PStr (s : pystr)
| PDatetime (d : datetime)
| PList (l : list pyval)
| PDict (m : gmap (list N) pyval).

Abbreviation dict := (gmap (list N) pyval).

(** What [json.dump] accepts: a datetime anywhere inside raises TypeError. *)
Fixpoint json_ok (v : pyval) : bool :=
  match v with
  | PDatetime _ => false
  | PList l => forallb json_ok l
  | PDict m => map_fold (fun _ x acc => json_ok x && acc) true m
  | _ => true
  end.

(** Truth value of an object in an [if]. *)
Definition truthy (v : pyval) : bool :=
  match v with
  | PNone => false
  | PBool b => b
  | PInt n => negb (n =? 0)
  | PFloat _ => true
  | PStr s => negb (bool_decide (s = []))
  | PDatetime _ => true
  | PList l => negb (bool_decide (l = []))
  | PDict m => negb (bool_decide (size m = 0%nat))
  end.

(** *** datetime.isoformat and datetime.fromisoformat *)

(** ["%0wd" % n] for [0 <= n < 10^w]. *)
Fixpoint digits (w : nat) (n : Z) : pystr :=
  match w with
  | O => []
  | S w' => digits w' (n / 10) ++ [Z.to_N (48 + n mod 10)]
  end.

(** [d.isoformat()]: [YYYY-MM-DDTHH:MM:SS], followed by [.ffffff] when the
    microseconds are not zero. *)
Definition isoformat (d : datetime) : pystr :=
  digits 4 (year d) ++ lit "-" ++ digits 2 (month d) ++ lit "-"
  ++ digits 2 (day d) ++ lit "T" ++ digits 2 (hour d) ++ lit ":"
  ++ digits 2 (minute d) ++ lit ":" ++ digits 2 (second d)
  ++ (if microsecond d =? 0 then [] else lit "." ++ digits 6 (microsecond d)).

Definition digit_val (c : N) : option Z :=
  if ((48 <=? c) && (c <=? 57))%N then Some (Z.of_N c - 48) else None.

Fixpoint number_from (acc : Z) (s : pystr) : option Z :=
  match s with
  | [] => Some acc
  | c :: r => v ← digit_val c; number_from (10 * acc + v) r
  end.

(** Exactly [w] digits at the head of [s]: their value and the rest. *)
Definition field (w : nat) (s : pystr) : option (Z * pystr) :=
  if bool_decide (length (take w s) = w)
  then n ← number_from 0 (take w s); Some (n, drop w s)
  else None.

Definition expect (c : N) (s : pystr) : option pystr :=
  match s with
  | c' :: r => if (c' =? c)%N then Some r else None
  | [] => None
  end.

(** [HH[:MM[:SS[.fff[fff]]]]] *)
Definition parse_time (s : pystr) : option (Z * Z * Z * Z) :=
  '(h, s) ← field 2 s;
  match s with
  | [] => Some (h, 0, 0, 0)
  | _ =>
    s ← expect 58 s; '(mi, s) ← field 2 s;
    match s with
    | [] => Some (h, mi, 0, 0)
    | _ =>
      s ← expect 58 s; '(sec, s) ← field 2 s;
      match s with
      | [] => Some (h, mi, sec, 0)
      | _ =>
        s ← expect 46 s;
        if bool_decide (length s = 6%nat)
        then us ← number_from 0 s; Some (h, mi, sec, us)
        else if bool_decide (length s = 3%nat)
        then ms ← number_from 0 s; Some (h, mi, sec, ms * 1000)
        else None
      end
    end
  end.

(** [YYYY-MM-DD[*HH[:MM[:SS[.fff[fff]]]]]], where [*] is any one character. *)
Definition parse_iso (s : pystr) : option datetime :=
  '(y, s) ← field 4 s; s ← expect 45 s;
  '(m, s) ← field 2 s; s ← expect 45 s;
  '(d, s) ← field 2 s;
  match s with
  | [] => Some (mk_datetime y m d 0 0 0 0)
  | _ :: t =>
    '(h, mi, sec, us) ← parse_time t;
    Some (mk_datetime y m d h mi sec us)
  end.

(** [datetime.fromisoformat(s)], the inverse of [isoformat] as Python 3.7
    to 3.10 document it. A string with a UTC offset denotes an aware
    datetime, which the application never creates; the model has naive
    datetimes only and lets such a string, like every other string outside
    the grammar above, raise ValueError. *)
Definition fromisoformat (s : pystr) : result datetime :=
  match parse_iso s with
  | Some d => if valid_datetime d then Ok d else Raise ValueError
  | None => Raise ValueError
  end.

(** ** Durable storage *)

(** A file is modelled by what [json.load] makes of it: [Doc v] holds the
    JSON document of the value [v] (what [json.dump] wrote, and [json.load]
    reads back: the json module's own round trip on None, bool, numbers,
    str, list and dict with str keys); [Unparsable] is any content that
    [json.load] rejects, such as an empty file or a document cut short.
    A path without entry in the file system is a missing file. *)
Inductive file :=
| Unparsable
| Doc (v : pyval).

Abbreviation filesystem := (gmap (list N) file).

Definition EVENTS_FILE : pystr := lit "events.json".
Definition TODOS_FILE : pystr := lit "todos.json".

(** [open(path, "r")] *)
Definition open_read (fs : filesystem) (path : pystr) : result file :=
  match fs !! path with
  | Some f => Ok f
  | None => Raise FileNotFoundError
  end.

(** [json.load(f)] *)
Definition json_load (f : file) : result pyval :=
  match f with
  | Doc v => Ok v
  | Unparsable => Raise JSONDecodeError
  end.

(** [open(path, "w")] followed by [json.dump(v, f, indent=2)]: the file is
    created or emptied first; a value that is not serializable raises
    TypeError and leaves a document cut short. *)
Definition json_dump_to (path : pystr) (v : pyval) (fs : filesystem)
  : filesystem * result unit :=
  if json_ok v then (<[path := Doc v]> fs, Ok tt)
  else (<[path := Unparsable]> fs, Raise TypeError).

(** One turn of the loop of [load_events]:
    [if isinstance(e.get('time'), str): e['time'] = datetime.fromisoformat(e['time'])].
    Only a dict has [get]. *)
Definition restore_time (e : pyval) : result pyval :=
  match e with
  | PDict m =>
      match m !! lit "time" with
      | Some (PStr s) =>
          d ← fromisoformat s; Ok (PDict (<[lit "time" := PDatetime d]> m))
      | _ => Ok e
      end
  | _ => Raise AttributeError
  end.

(** [for e in events: ...] over what [json.load] returned. A list yields
    its elements; a dict yields its keys and a str its characters, which
    are strings without [get]; other values are not iterable. *)
Definition restore_times (events : pyval) : result pyval :=
  match events with
  | PList l => l' ← mapM restore_time l; Ok (PList l')
  | PDict m => if bool_decide (size m = 0%nat) then Ok events else Raise AttributeError
  | PStr s => if bool_decide (s = []) then Ok events else Raise AttributeError
  | _ => Raise TypeError
  end.

(** The body of the [try] of [load_events]. *)
Definition load_events_try (fs : filesystem) : result pyval :=
  f ← open_read fs EVENTS_FILE;
  events ← json_load f;
  restore_times events.

(** [load_events()]: [except Exception: return []]. *)
Definition load_events (fs : filesystem) : pyval :=
  match load_events_try fs with
  | Ok events => events
  | Raise _ => PList []
  end.

(** The copy [save_events] makes of one event:
    [e_copy = e.copy()], then the datetime under ['time'] becomes its
    isoformat string. *)
Definition serializable_copy (e : dict) : dict :=
  match e !! lit "time" with
  | Some (PDatetime d) => <[lit "time" := PStr (isoformat d)]> e
  | _ => e
  end.

(** [save_events(events)] *)
Definition save_events (events : list dict) (fs : filesystem)
  : filesystem * result unit :=
  let serializable := (fun e => PDict (serializable_copy e)) <$> events in
  json_dump_to EVENTS_FILE (PList serializable) fs.

(** [load_todos()] *)
Definition load_todos (fs : filesystem) : pyval :=
  match f ← open_read fs TODOS_FILE; json_load f with
  | Ok todos => todos
  | Raise _ => PList []
  end.

(** [save_todos(todos)] *)
Definition save_todos (todos : pyval) (fs : filesystem)
  : filesystem * result unit :=
  json_dump_to TODOS_FILE todos fs.

(** ** Session state *)

(** References to the dict objects of events. *)
Abbreviation loc := positive.

(** An alert, the dict built by [add_alert_dynamic]; ['event'] is a
    reference to the event's dict. *)
Record alert := mk_alert {
  alert_id : Z;
  alert_type : pystr;
  alert_class : pystr;
  alert_auto : pystr;
  alert_event : loc;
  alert_created : datetime;
  alert_urgency : Z;
  alert_dismissed : bool
}.

(** An entry of the decision log, the dict [orchestrator_entry]; ['event']
    is the reference the orchestrator was called with. *)
Record orchestrator_entry := mk_entry {
  entry_event : loc;
  entry_answers : bool * bool * bool;
  entry_outcome : pystr;
  entry_color : pystr;
  entry_timestamp : datetime
}.

(** [st.session_state] together with the objects it refers to and the
    files of the working directory. *)
Record session_state := mk_state {
  heap : gmap loc (gmap (list N) pyval);
  events : list loc;
  orchestrator_log : list orchestrator_entry;
  alerts : list alert;
  todos : pyval;
  files : gmap (list N) file
}.

(** The dict a reference points to. *)
Definition deref (h : gmap loc (gmap (list N) pyval)) (l : loc) : dict :=
  default ∅ (h !! l).

(** The events of the session, by value, in list order. *)
Definition event_values (st : session_state) : list dict :=
  deref (heap st) <$> events st.

(** ** Alerts *)

Record alert_def := mk_alert_def {
  def_class : pystr;
  def_urgency : Z
}.

#[global] Instance alert_def_inhabited : Inhabited alert_def :=
  populate (mk_alert_def [] 0).

Definition risk_to_alert : gmap (list N) alert_def :=
  <[lit "High" := mk_alert_def (lit "alert-critical") 60]>
  (<[lit "Medium" := mk_alert_def (lit "alert-asset") 900]>
  (<[lit "Low" := mk_alert_def (lit "alert-rounding") 14400]>
  (<[lit "Training" := mk_alert_def (lit "alert-training") 86400]>
  (<[lit "Compliance" := mk_alert_def (lit "alert-compliance") 3600]> ∅)))).

(** [format_urgency(alert)]; [//] is floor division, as [Z.div] is. *)
Definition format_urgency (a : alert) : pystr :=
  if alert_urgency a <? 3600 then str_of_int (alert_urgency a / 60) ++ lit "m"
  else if alert_urgency a <? 86400 then str_of_int (alert_urgency a / 3600) ++ lit "h"
  else str_of_int (alert_urgency a / 86400) ++ lit "d".

(** [add_alert_dynamic(event, risk_level, auto_action)]. [id] is the
    reading [time.time() + random.random()] and [now] the reading
    [datetime.now()] of this call. *)
Definition add_alert_dynamic (event : loc) (risk_level : pystr)
    (auto_action : option pystr) (id : Z) (now : datetime)
    (st : session_state) : session_state :=
  let alert_def :=
    default (risk_to_alert !!! lit "Low") (risk_to_alert !! risk_level) in
  let alert := {|
    alert_id := id;
    alert_type := risk_level;
    alert_class := def_class alert_def;
    alert_auto := default [] auto_action;
    alert_event := event;
    alert_created := now;
    alert_urgency := def_urgency alert_def;
    alert_dismissed := false
  |} in
  mk_state (heap st) (events st) (orchestrator_log st)
           (alert :: alerts st) (todos st) (files st).

(** ** Orchestrator *)

(** The [if]/[elif]/[else] of [process_orchestrator_decision]:
    outcome, color and alert type. *)
Definition classify (answers : bool * bool * bool) : pystr * pystr * pystr :=
  let '(a0, a1, a2) := answers in
  if a0 then (lit "Escalate", lit "#ff4d4f", lit "Critical Safety")
  else if a1 || a2 then
    (lit "Schedule Task", lit "#faad14",
     if a2 then lit "Asset Failure Risk" else lit "Compliance Drift")
  else (lit "Auto-Resolve", lit "#52c41a", lit "Rounding").

(** The readings of the environment during one orchestrator run. *)
Record readings := mk_readings {
  entry_now : datetime;
  new_alert_id : Z;
  alert_now : datetime
}.

(** [process_orchestrator_decision(event, answers)] *)
Definition process_orchestrator_decision (event : loc)
    (answers : bool * bool * bool) (rd : readings) (st : session_state)
  : (pystr * pystr) * session_state :=
  let '(outcome, color, alert_type) := classify answers in
  let orchestrator_entry := {|
    entry_event := event;
    entry_answers := answers;
    entry_outcome := outcome;
    entry_color := color;
    entry_timestamp := entry_now rd
  |} in
  let st := mk_state (heap st) (events st)
                     (orchestrator_entry :: orchestrator_log st)
                     (alerts st) (todos st) (files st) in
  let st := mk_state (alter (insert (lit "status") (PStr outcome)) event (heap st))
                     (events st) (orchestrator_log st)
                     (alerts st) (todos st) (files st) in
  let st := add_alert_dynamic event alert_type None
                              (new_alert_id rd) (alert_now rd) st in
  ((outcome, color), st).

(** ** Entry Points page: the event form *)

(** The dict literal of the form handler. *)
Definition new_event (t : Z) (event_type event_details : pystr)
    (now : datetime) : dict :=
  <[lit "id" := PFloat t]>
  (<[lit "type" := PStr event_type]>
  (<[lit "details" := PStr event_details]>
  (<[lit "time" := PDatetime now]>
  (<[lit "status" := PStr (lit "Pending")]> ∅)))).

(** [if submitted and event_details: ...] up to [save_events]. [t] is the
    reading [time.time()], [now] the reading [datetime.now()]; the new dict
    is a new object. An exception of [save_events] leaves the event in the
    session. *)
Definition submit_event (submitted : bool) (event_type event_details : pystr)
    (t : Z) (now : datetime) (st : session_state)
  : session_state * result unit :=
  if submitted && truthy (PStr event_details) then
    let event := fresh (dom (heap st)) in
    let st := mk_state (<[event := new_event t event_type event_details now]> (heap st))
                       (event :: events st) (orchestrator_log st)
                       (alerts st) (todos st) (files st) in
    let '(fs, r) := save_events (event_values st) (files st) in
    (mk_state (heap st) (events st) (orchestrator_log st)
              (alerts st) (todos st) fs, r)
  else (st, Ok tt).

(** ** Dashboard page: todos from the LLM's answer *)

(** [d[k]] *)
Definition getitem (d : dict) (k : pystr) : result pyval :=
  match d !! k with
  | Some v => Ok v
  | None => Raise KeyError
  end.

(** [x in v] for a string [x]: substring of a str, element of a list, key
    of a dict; other values are not containers. *)
Definition py_in (x : pystr) (v : pyval) : result bool :=
  match v with
  | PStr s => Ok (contains x s)
  | PList l =>
      Ok (existsb (fun y => match y with
                            | PStr s => bool_decide (s = x)
                            | _ => false
                            end) l)
  | PDict m => Ok (bool_decide (is_Some (m !! x)))
  | _ => Raise TypeError
  end.

(** [parts = line.split('|')] and the three fields cut from it. *)
Definition todo_fields (line : pystr) : result (pystr * pystr * pystr) :=
  let parts := split 124 line in
  p0 ← index parts 0;
  let event_part := strip (replace (lit "Event:") [] p0) in
  p1 ← index parts 1;
  let risk_part := strip (replace (lit "Risk:") [] p1) in
  p2 ← index parts 2;
  let action_part := strip (replace (lit "Action:") [] p2) in
  Ok (event_part, risk_part, action_part).

(** The dict appended to [new_todos]. *)
Definition new_todo (event_part risk_part action_part : pystr) : pyval :=
  PDict (<[lit "event" := PStr event_part]>
        (<[lit "risk" := PStr risk_part]>
        (<[lit "action" := PStr action_part]>
        (<[lit "done" := PBool false]> ∅)))).

(** [next((e for e in events if event_part in e['details']), None)] *)
Fixpoint matching_event (event_part : pystr)
    (h : gmap loc (gmap (list N) pyval)) (evs : list loc)
  : result (option loc) :=
  match evs with
  | [] => Ok None
  | e :: rest =>
      details ← getitem (deref h e) (lit "details");
      b ← py_in event_part details;
      if b : bool then Ok (Some e) else matching_event event_part h rest
  end.

(** The line qualifies: [if '| Risk:' in line and '| Action:' in line]. *)
Definition qualifies (line : pystr) : bool :=
  contains (lit "| Risk:") line && contains (lit "| Action:") line.

(** [for line in ai_todo_text.splitlines(): ...]. [env i] gives the
    readings (alert id, [datetime.now()]) of the alert made for line [i]. *)
Fixpoint parse_lines (env : nat → Z * datetime) (i : nat)
    (lines : list pystr) (new_todos : list pyval) (st : session_state)
  : result (list pyval * session_state) :=
  match lines with
  | [] => Ok (new_todos, st)
  | line :: rest =>
      if qualifies line then
        '(event_part, risk_part, action_part) ← todo_fields line;
        let new_todos := new_todos ++ [new_todo event_part risk_part action_part] in
        m ← matching_event event_part (heap st) (events st);
        let st :=
          match m with
          | Some e =>
              if truthy (PDict (deref (heap st) e))
              then add_alert_dynamic e risk_part (Some action_part)
                                     (env i).1 (env i).2 st
              else st
          | None => st
          end in
        parse_lines env (S i) rest new_todos st
      else parse_lines env (S i) rest new_todos st
  end.

(** [if ai_todo_text: ...] down to [save_todos(new_todos)], for the answer
    [ai_todo_text] of [call_gemini_api] ([None] without answer). *)
Definition update_todos (env : nat → Z * datetime)
    (ai_todo_text : option pystr) (st : session_state)
  : result session_state :=
  match ai_todo_text with
  | Some text =>
      if truthy (PStr text) then
        '(new_todos, st) ← parse_lines env 0 (splitlines text) [] st;
        if truthy (PList new_todos) then
          let '(fs, r) := save_todos (PList new_todos) (files st) in
          r ≫= λ _,
          Ok (mk_state (heap st) (events st) (orchestrator_log st)
                       (alerts st) (PList new_todos) fs)
        else Ok st
      else Ok st
  | None => Ok st
  end.

(** ** Predicates of the statements *)

(** An event's dict is storable when [save_events] can write it and
    [load_events] can tell its timestamp from its other fields: what is
    under ['time'] is a datetime object (as for every event the form
    creates) or a JSON value that is not a string, and every other field is
    a JSON value. *)
Definition storable (e : dict) : Prop :=
  match e !! lit "time" with
  | Some (PDatetime d) => valid_datetime d = true
  | Some (PStr _) => False
  | Some v => json_ok v = true
  | None => True
  end
  ∧ ∀ k v, k ≠ lit "time" → e !! k = Some v → json_ok v = true.

(** The event has a string under ['details'], as every event of the form has. *)
Definition has_details (h : gmap loc (gmap (list N) pyval)) (e : loc) : Prop :=
  ∃ s, deref h e !! lit "details" = Some (PStr s).

(** The ids of the session's events, in list order. *)
Definition event_ids (st : session_state) : list (option pyval) :=
  (λ e : dict, e !! lit "id") <$> event_values st.

(** Stated by the spec, section 3 (OrchestratorDecision): the entry holds
    the event "by value copy, not live reference", that is, the event read
    through the newest entry after the run is the event as it was when the
    orchestrator was called. *)
Definition entry_is_snapshot (event : loc) (answers : bool * bool * bool)
    (rd : readings) (st : session_state) : Prop :=
  let st' := (process_orchestrator_decision event answers rd st).2 in
  ∀ entry, head (orchestrator_log st') = Some entry →
    deref (heap st') (entry_event entry) = deref (heap st) event.

(** Stated by the spec, section 4.5: a segment has its label prefix
    stripped and is trimmed of whitespace. *)
Definition strip_label_prefix (label seg : pystr) : pystr :=
  let seg := strip seg in
  strip (if startswith label seg then drop (length label) seg else seg).

(** Stated by the spec, section 4.5: the Todo of a qualifying line. *)
Definition spec_todo (line : pystr) : pyval :=
  let parts := split 124 line in
  new_todo (strip_label_prefix (lit "Event:") (nth 0 parts []))
           (strip_label_prefix (lit "Risk:") (nth 1 parts []))
           (strip_label_prefix (lit "Action:") (nth 2 parts [])).

(** [t] is the todo the loop builds from the line: the first three parts
    of the line cut at the bars, each without the occurrences of its label
    and without surrounding whitespace, and [done] false. *)
Definition is_todo_of (line : pystr) (t : pyval) : Prop :=
  ∃ p0 p1 p2 rest,
    split 124 line = p0 :: p1 :: p2 :: rest
    ∧ t = new_todo (strip (replace (lit "Event:") [] p0))
                   (strip (replace (lit "Risk:") [] p1))
                   (strip (replace (lit "Action:") [] p2)).

(** Stated by the spec, section 4.5: parsing the answer [text] yields, in
    order, the spec's Todo of each qualifying line. *)
Definition parses_as_spec (env : nat → Z * datetime) (text : pystr)
    (st : session_state) : Prop :=
  ∃ st', parse_lines env 0 (splitlines text) [] st
         = Ok (spec_todo <$> filter (λ line, qualifies line = true) (splitlines text),
               st').

(** Stated by the spec, section 3 (Event): ids are unique within the store. *)
Definition ids_unique (st : session_state) : Prop :=
  NoDup (event_ids st).

(** Stated by the spec, section 4.5: after the answer [text] is parsed,
    the todos are the newly parsed set, which is also what the todos file
    holds, if at least one line qualified; todos and file are untouched if
    none did. *)
Definition todos_follow_answer (env : nat → Z * datetime) (text : pystr)
    (st : session_state) : Prop :=
  ∃ st',
    update_todos env (Some text) st = Ok st'
    ∧ (Exists (λ line, qualifies line = true) (splitlines text) →
       ∃ new_todos,
         new_todos ≠ [] ∧ todos st' = PList new_todos
         ∧ load_todos (files st') = PList new_todos)
    ∧ (Forall (λ line, qualifies line = false) (splitlines text) →
       todos st' = todos st ∧ files st' = files st).

(** ** Concrete inputs *)

Definition noon : datetime := mk_datetime 2025 3 14 12 0 0 0.
Definition later : datetime := mk_datetime 2025 3 14 12 0 7 250000.

(** An event as the form creates it. *)
Definition leak_event : dict :=
  new_event 1741953600 (lit "Incident Flag") (lit "Pump leak in unit 3") noon.

(** A session with that one event and nothing else. *)
Definition leak_session : session_state :=
  mk_state {[1%positive := leak_event]} [1%positive] [] [] (PList []) ∅.

Definition leak_readings : readings := mk_readings later 1741953607 later.

(** An alert of risk Medium for that event. *)
Definition medium_alert : alert :=
  mk_alert 1741953601 (lit "Medium") (lit "alert-asset") (lit "Inspect valve")
           1%positive later 900 false.

(** The answer of the spec's example of todo parsing: two todo lines
    around a line that is none. *)
Definition example_answer : pystr :=
  lit "Event: Pump leak | Risk: High | Action: Inspect valve" ++ [10%N]
  ++ lit "not a todo line" ++ [10%N]
  ++ lit "Event: Sensor drift | Risk: Low | Action: Recalibrate".

(** An answer whose event text holds the label a second time. *)
Definition contractor_answer : pystr :=
  lit "Event: Contractor Event: badge expired | Risk: Low | Action: Renew badge".

(** Readings of the clock for the alerts of the todo loop. *)
Definition clock_readings (i : nat) : Z * datetime :=
  (1741953700 + Z.of_nat i, later).

(** A session without events. *)
Definition empty_session : session_state :=
  mk_state ∅ [] [] [] (PList []) ∅.

(** An event as another tool can write it to the events file: its details
    are [null]. *)
Definition null_details_event : dict :=
  <[lit "details" := PNone]> leak_event.

Definition foreign_file : filesystem :=
  {[EVENTS_FILE := Doc (PList [PDict (serializable_copy null_details_event)])]}.

(** The session that starts from that file. *)
Definition null_details_session : session_state :=
  mk_state {[1%positive := null_details_event]} [1%positive] [] []
           (PList []) foreign_file.

(** * The rest of the module

    The functions of [app.py] around the ones above: the bullet-list
    reader, relative times, the dismissal of alerts, the check boxes of the
    todo list, the call of the completion service and the refresh of the
    todo list that sends the prompt. *)

(** ** AI todo list utilities *)

(** [s.lstrip(chars)], [s.rstrip(chars)], [s.strip(chars)]: the characters
    of [chars] are removed from the ends. *)
Fixpoint lstrip_chars (chars s : pystr) : pystr :=
  match s with
  | c :: r => if bool_decide (c ∈ chars) then lstrip_chars chars r else s
  | [] => []
  end.

Definition rstrip_chars (chars s : pystr) : pystr :=
  rev (lstrip_chars chars (rev s)).

Definition strip_chars (chars s : pystr) : pystr :=
  rstrip_chars chars (lstrip_chars chars s).

(** The literal ['-•* 1234567890.']; the bullet is U+2022. *)
Definition bullet_chars : pystr :=
  lit "-" ++ [8226%N] ++ lit "* 1234567890.".

(** The loop of [extract_todos_from_ai] over the lines still to read. *)
Fixpoint extract_todos_loop (lines : list pystr) (todos : list pystr)
  : list pystr :=
  match lines with
  | [] => todos
  | line :: rest =>
      let line := strip (strip_chars bullet_chars line) in
      if truthy (PStr line) then extract_todos_loop rest (todos ++ [line])
      else extract_todos_loop rest todos
  end.

(** [extract_todos_from_ai(ai_analysis_text)] *)
Definition extract_todos_from_ai (ai_analysis_text : pystr) : list pystr :=
  extract_todos_loop (splitlines ai_analysis_text) [].

(** ** Relative times *)

(** A [timedelta], normalized as Python keeps it:
    [0 <= seconds < 86400] and [0 <= microseconds < 1000000]. *)
Record timedelta := mk_timedelta {
  days : Z; seconds : Z; microseconds : Z
}.

(** Days before January 1st of year [y] and before the first of month [m],
    and the ordinal of a date (January 1st of year 1 is day 1). *)
Definition days_before_year (y : Z) : Z :=
  (y - 1) * 365 + (y - 1) / 4 - (y - 1) / 100 + (y - 1) / 400.

Definition days_before_month (y m : Z) : Z :=
  foldr (λ k acc, days_in_month y k + acc) 0 (seqZ 1 (m - 1)).

Definition toordinal (d : datetime) : Z :=
  days_before_year (year d) + days_before_month (year d) (month d) + day d.

(** Microseconds from the start of day 0 to the datetime. *)
Definition total_microseconds (d : datetime) : Z :=
  ((toordinal d * 86400 + hour d * 3600 + minute d * 60 + second d) * 1000000)
  + microsecond d.

(** [a - b] for two naive datetimes. *)
Definition datetime_sub (a b : datetime) : timedelta :=
  let us := total_microseconds a - total_microseconds b in
  {| days := us / 86400000000;
     seconds := us mod 86400000000 / 1000000;
     microseconds := us mod 1000000 |}.

(** [time_ago(date)]; [now] is the reading [datetime.now()]. *)
Definition time_ago (now date : datetime) : pystr :=
  let diff := datetime_sub now date in
  if 0 <? days diff then str_of_int (days diff) ++ lit " days ago"
  else if 3600 <? seconds diff
  then str_of_int (seconds diff / 3600) ++ lit " hours ago"
  else if 60 <? seconds diff
  then str_of_int (seconds diff / 60) ++ lit " minutes ago"
  else lit "Just now".

(** ** Alert Matrix page *)

(** The alerts the page shows: [for alert in alerts: if not alert['dismissed']]. *)
Definition active_alerts (st : session_state) : list alert :=
  filter (λ a, alert_dismissed a = false) (alerts st).

(** The Dismiss button of the alert at position [i] of the list was
    pressed: [alert['dismissed'] = True]. Only alerts that are shown have
    a button. *)
Definition dismiss (i : nat) (st : session_state) : session_state :=
  match alerts st !! i with
  | Some a =>
      if alert_dismissed a then st
      else
        let a' := mk_alert (alert_id a) (alert_type a) (alert_class a)
                           (alert_auto a) (alert_event a) (alert_created a)
                           (alert_urgency a) true in
        mk_state (heap st) (events st) (orchestrator_log st)
                 (<[i := a']> (alerts st)) (todos st) (files st)
  | None => st
  end.

(** ** Dashboard page: the check boxes of the todo list *)

(** [st.session_state.todos[idx]['done'] = checked] followed by
    [save_todos(st.session_state.todos)]. The first subscript needs a list
    with an element at [idx], the assignment a dict. *)
Definition set_done (idx : nat) (checked : bool) (st : session_state)
  : session_state * result unit :=
  match todos st with
  | PList l =>
      match l !! idx with
      | Some (PDict m) =>
          let todos' :=
            PList (<[idx := PDict (<[lit "done" := PBool checked]> m)]> l) in
          let '(fs, r) := save_todos todos' (files st) in
          (mk_state (heap st) (events st) (orchestrator_log st) (alerts st)
                    todos' fs, r)
      | Some _ => (st, Raise TypeError)
      | None => (st, Raise IndexError)
      end
  | PDict _ => (st, Raise KeyError)
  | PStr s =>
      (st, if bool_decide (idx < length s)%nat then Raise TypeError
           else Raise IndexError)
  | _ => (st, Raise TypeError)
  end.

(** ** The completion service *)

(** What [requests.post] returned: [response.status_code],
    [response.text], and what [response.json()] returns or the text
    [str(e)] of the exception it raises. *)
Record http_response := mk_response {
  status_code : Z;
  response_text : pystr;
  response_json : pystr + pyval
}.

(** [len(v)] *)
Definition py_len (v : pyval) : result nat :=
  match v with
  | PStr s => Ok (length s)
  | PList l => Ok (length l)
  | PDict m => Ok (size m)
  | _ => Raise TypeError
  end.

(** [v[k]] for a string [k]: only a dict takes it. *)
Definition getitem_str (v : pyval) (k : pystr) : result pyval :=
  match v with
  | PDict m => getitem m k
  | _ => Raise TypeError
  end.

(** [v[0]]: the first element of a list, the first character of a string;
    a dict read from JSON has no key [0]. *)
Definition getitem_0 (v : pyval) : result pyval :=
  match v with
  | PList l => index l 0
  | PStr s => c ← index s 0; Ok (PStr [c])
  | PDict _ => Raise KeyError
  | _ => Raise TypeError
  end.

(** The [status_code == 200] branch of [call_gemini_api], inside the [try]. *)
Definition first_choice (body : pyval) : result pyval :=
  has ← py_in (lit "choices") body;
  if has : bool then
    choices ← getitem_str body (lit "choices");
    n ← py_len choices;
    if bool_decide (0 < n)%nat then
      choice ← getitem_0 choices;
      message ← getitem_str choice (lit "message");
      getitem_str message (lit "content")
    else Ok (PStr (lit "No response generated"))
  else Ok (PStr (lit "No response generated")).

(** [call_gemini_api(prompt, api_key)]. [post prompt key] is what
    [requests.post] does with the request: a response, or the text [str(e)]
    of the exception it raises; [str_e r] is the text [str(e)] of the
    exception that reading the response [r] raises, if it raises one. *)
Definition call_gemini_api
    (post : pystr → pystr → pystr + http_response)
    (str_e : http_response → pystr)
    (prompt : pystr) (api_key : option pystr) : pyval :=
  match api_key with
  | None => PNone
  | Some key =>
      if negb (truthy (PStr key)) then PNone
      else
        match post prompt key with
        | inr response =>
            if status_code response =? 200 then
              match response_json response with
              | inr body =>
                  match first_choice body with
                  | Ok v => v
                  | Raise _ => PStr (lit "Request Error: " ++ str_e response)
                  end
              | inl e => PStr (lit "Request Error: " ++ e)
              end
            else PStr (lit "API Error: " ++ str_of_int (status_code response)
                         ++ lit " - " ++ response_text response)
        | inl e => PStr (lit "Request Error: " ++ e)
        end
  end.

(** ** Dashboard page: the refresh of the todo list *)

(** [sep.join(l)] *)
Fixpoint join (sep : pystr) (l : list pystr) : pystr :=
  match l with
  | [] => []
  | s :: rest =>
      match rest with
      | [] => s
      | _ :: _ => s ++ sep ++ join sep rest
      end
  end.

(** [f"{e['type']}: {e['details']} (Status: {e['status']})"]: the three
    lookups in this order, each raising KeyError on a missing key.
    [format v] is the text that an f-string puts for the value [v]. *)
Definition event_line (format : pyval → pystr) (e : dict) : result pystr :=
  ty ← getitem e (lit "type");
  details ← getitem e (lit "details");
  status ← getitem e (lit "status");
  Ok (format ty ++ lit ": " ++ format details ++ lit " (Status: "
      ++ format status ++ lit ")").

(** [events_text]: the lines of [st.session_state.events[:10]], joined. *)
Definition events_text (format : pyval → pystr)
    (h : gmap loc (gmap (list N) pyval)) (evs : list loc) : result pystr :=
  lines ← mapM (λ e, event_line format (deref h e)) (take 10 evs);
  Ok (join [10%N] lines).

(** [todo_prompt] *)
Definition todo_prompt (events_text : pystr) : pystr :=
  lit "Analyze these chemical facility events and for each event, provide:"
  ++ [10%N] ++ lit "- A risk level (High, Medium, Low)"
  ++ [10%N] ++ lit "- A recommended action item"
  ++ [10%N]
  ++ lit "Format as: Event: <event details> | Risk: <risk> | Action: <todo>"
  ++ [10%N; 10%N] ++ lit "Recent Events:"
  ++ [10%N] ++ events_text ++ [10%N].

(** [if api_key and st.session_state.events: ...] down to
    [save_todos(new_todos)]: the prompt is built from the events and sent,
    and the answer is parsed. An answer that is true and no string has no
    [splitlines]. *)
Definition refresh_todos (format : pyval → pystr)
    (post : pystr → pystr → pystr + http_response)
    (str_e : http_response → pystr)
    (env : nat → Z * datetime) (api_key : option pystr) (st : session_state)
  : result session_state :=
  let has_key :=
    match api_key with
    | Some key => truthy (PStr key)
    | None => false
    end in
  if has_key && negb (bool_decide (events st = [])) then
    text ← events_text format (heap st) (events st);
    match call_gemini_api post str_e (todo_prompt text) api_key with
    | PStr ai_todo_text => update_todos env (Some ai_todo_text) st
    | PNone => update_todos env None st
    | v => if truthy v then Raise AttributeError else Ok st
    end
  else Ok st.

(** ** Loading with any ISO parser *)

(** [load_events] as a function of [datetime.fromisoformat], which accepts
    more strings in later versions of Python: [parse] stands for it. *)
Definition restore_time_with (parse : pystr → result datetime) (e : pyval)
  : result pyval :=
  match e with
  | PDict m =>
      match m !! lit "time" with
      | Some (PStr s) =>
          d ← parse s;
          Ok (PDict (<[lit "time" := PDatetime d]> m))
      | _ => Ok e
      end
  | _ => Raise AttributeError
  end.

Definition restore_times_with (parse : pystr → result datetime)
    (events : pyval) : result pyval :=
  match events with
  | PList l => l' ← mapM (restore_time_with parse) l; Ok (PList l')
  | PDict m =>
      if bool_decide (size m = 0%nat) then Ok events else Raise AttributeError
  | PStr s =>
      if bool_decide (s = []) then Ok events else Raise AttributeError
  | _ => Raise TypeError
  end.

Definition load_events_with (parse : pystr → result datetime)
    (fs : filesystem) : pyval :=
  let loaded :=
    f ← open_read fs EVENTS_FILE;
    events ← json_load f;
    restore_times_with parse events in
  match loaded with
  | Ok events => events
  | Raise _ => PList []
  end.

(** ** More predicates and inputs *)

(** The rest of [s] after its longest prefix of characters satisfying [p]:
    what [lstrip] and [lstrip_chars] have in common. *)
Fixpoint drop_while (p : N → bool) (s : pystr) : pystr :=
  match s with
  | c :: r => if p c then drop_while p r else s
  | [] => []
  end.

(** The only whitespace of the text is the space and the line boundaries
    (no tab, no no-break space and the like). *)
Definition plain_spaces (text : pystr) : Prop :=
  ∀ c, c ∈ text → is_space c = true → c = 32%N ∨ is_linebreak c = true.

(** The event's dict exists. *)
Definition allocated (st : session_state) (e : loc) : Prop :=
  is_Some (heap st !! e).

(** The alert [a] is one the todo loop makes for the line: it belongs to
    an event of the store whose details hold the line's event text, has
    the line's risk as type and the line's action as automatic action, and
    is not dismissed. *)
Definition alert_from_line (st : session_state) (line : pystr) (a : alert)
  : Prop :=
  ∃ p0 p1 p2 rest details,
    split 124 line = p0 :: p1 :: p2 :: rest
    ∧ alert_event a ∈ events st
    ∧ deref (heap st) (alert_event a) !! lit "details" = Some details
    ∧ py_in (strip (replace (lit "Event:") [] p0)) details = Ok true
    ∧ alert_type a = strip (replace (lit "Risk:") [] p1)
    ∧ alert_auto a = strip (replace (lit "Action:") [] p2)
    ∧ alert_dismissed a = false.

(** The value is no str, list or dict: [x in v] raises TypeError. *)
Definition not_a_container (v : pyval) : Prop :=
  match v with
  | PStr _ | PList _ | PDict _ => False
  | _ => True
  end.

(** The event has the three keys that the prompt reads. *)
Definition has_prompt_keys (h : gmap loc (gmap (list N) pyval)) (e : loc)
  : Prop :=
  is_Some (deref h e !! lit "type")
  ∧ is_Some (deref h e !! lit "details")
  ∧ is_Some (deref h e !! lit "status").

(** A service that answers every request with status 200 and [text] as
    the content of the first choice. *)
Definition answering_service (text prompt key : pystr)
  : pystr + http_response :=
  inr (mk_response 200 []
         (inr (PDict {[lit "choices" :=
                         PList [PDict {[lit "message" :=
                                          PDict {[lit "content" := PStr text]}]}]]}))).

(** The text that an f-string puts for a string, which is the string, and
    for [None]. *)
Definition format_str_or_none (v : pyval) : pystr :=
  match v with
  | PStr s => s
  | _ => lit "None"
  end.

(** The body of a response holds [c] as the content of the message of its
    first choice. *)
Definition first_choice_content (body c : pyval) : Prop :=
  ∃ (m choice message : gmap (list N) pyval) rest,
    body = PDict m
    ∧ m !! lit "choices" = Some (PList (PDict choice :: rest))
    ∧ choice !! lit "message" = Some (PDict message)
    ∧ message !! lit "content" = Some c.

(** An element of the loaded list on which the loop of [load_events]
    raises: it is no dict, or its time is a string that the parser
    rejects. *)
Definition unreadable_event (parse : pystr → result datetime) (v : pyval)
  : Prop :=
  (∀ m, v ≠ PDict m)
  ∨ ∃ (m : gmap (list N) pyval) s e,
      v = PDict m ∧ m !! lit "time" = Some (PStr s)
      ∧ parse s = Raise e.

(** A service that answers every request with status 429. *)
Definition busy_service (prompt key : pystr) : pystr + http_response :=
  inr (mk_response 429 (lit "rate limit") (inl (lit "no JSON"))).

(** An events file with one event of the form and one whose time was
    edited by hand. *)
Definition edited_file : gmap (list N) file :=
  {[EVENTS_FILE :=
      Doc (PList [PDict (serializable_copy leak_event);
                  PDict (<[lit "time" := PStr (lit "yesterday")]> leak_event)])]}.

(** A numbered action item that ends in a number. *)
Definition numbered_item : pystr := lit "1. Replace valve 3".

(** A datetime a second after [noon], and one an hour before it. *)
Definition noon_plus_1s : datetime := mk_datetime 2025 3 14 12 0 1 0.
Definition eleven : datetime := mk_datetime 2025 3 14 11 0 0 0.

(** A session with two alerts, the second one dismissed. *)
Definition alert_session : session_state :=
  mk_state {[1%positive := leak_event]} [1%positive] []
    [medium_alert;
     mk_alert 1741953602 (lit "Low") (lit "alert-rounding") [] 1%positive
              later 14400 true]
    (PList [new_todo (lit "Pump leak") (lit "High") (lit "Inspect valve");
            new_todo (lit "Sensor drift") (lit "Low") (lit "Recalibrate")])
    ∅.

(** * Properties *)

(** ** Orchestrator *)

(** C1. The classification is a function of the three answers alone, and
    its table is: a true first answer gives Escalate with alert type
    Critical Safety; otherwise a true second or third answer gives Schedule
    Task, with Asset Failure Risk when the third is true and Compliance
    Drift when only the second is; otherwise Auto-Resolve with Rounding.
    The orchestrator returns the outcome and color of that table and gives
    its alert the type of that table, whatever the event and the state. *)
Theorem orchestrator_classification :
  (∀ a1 a2, classify (true, a1, a2)
            = (lit "Escalate", lit "#ff4d4f", lit "Critical Safety"))
  ∧ classify (false, true, true)
    = (lit "Schedule Task", lit "#faad14", lit "Asset Failure Risk")
  ∧ classify (false, true, false)
    = (lit "Schedule Task", lit "#faad14", lit "Compliance Drift")
  ∧ classify (false, false, true)
    = (lit "Schedule Task", lit "#faad14", lit "Asset Failure Risk")
  ∧ classify (false, false, false)
    = (lit "Auto-Resolve", lit "#52c41a", lit "Rounding")
  ∧ ∀ event answers rd st,
      (process_orchestrator_decision event answers rd st).1
      = ((classify answers).1.1, (classify answers).1.2)
      ∧ alert_type <$> head (alerts (process_orchestrator_decision event answers rd st).2)
        = Some (classify answers).2.
Proof.
  repeat split; try reflexivity.
  - unfold process_orchestrator_decision. by destruct (classify answers) as [[??]?].
  - unfold process_orchestrator_decision. by destruct (classify answers) as [[??]?].
Qed.

(** Reading through references. *)
Lemma deref_Some (h : gmap loc (gmap (list N) pyval)) l d :
  h !! l = Some d → deref h l = d.
Proof. unfold deref. by intros ->. Qed.

Lemma deref_insert_eq (h : gmap loc (gmap (list N) pyval)) l d :
  deref (<[l := d]> h) l = d.
Proof. apply deref_Some, lookup_insert_eq. Qed.

Lemma deref_insert_ne (h : gmap loc (gmap (list N) pyval)) l l' d :
  l ≠ l' → deref (<[l := d]> h) l' = deref h l'.
Proof. intros. unfold deref. by rewrite lookup_insert_ne. Qed.

(** The orchestrator's effect on the state, in one equation. *)
Lemma process_orchestrator_decision_state event answers rd st :
  (process_orchestrator_decision event answers rd st).2
  = mk_state
      (alter (insert (lit "status") (PStr (classify answers).1.1)) event (heap st))
      (events st)
      (mk_entry event answers (classify answers).1.1 (classify answers).1.2
                (entry_now rd) :: orchestrator_log st)
      (mk_alert (new_alert_id rd) (classify answers).2
                (def_class (default (risk_to_alert !!! lit "Low")
                                    (risk_to_alert !! (classify answers).2)))
                [] event (alert_now rd)
                (def_urgency (default (risk_to_alert !!! lit "Low")
                                      (risk_to_alert !! (classify answers).2)))
                false :: alerts st)
      (todos st) (files st).
Proof.
  unfold process_orchestrator_decision.
  by destruct (classify answers) as [[??]?].
Qed.

(** None of the alert types the orchestrator derives is a risk label. *)
Lemma classify_not_a_risk answers :
  risk_to_alert !! (classify answers).2 = None.
Proof. destruct answers as [[[] []] []]; vm_compute; reflexivity. Qed.

(** C2. One run on an event puts one entry at the front of the decision
    log, one alert at the front of the alerts, and sets the status of the
    event's dict, in place, to the outcome; the event list still holds the
    same reference. A second run on the same event adds a second entry and
    a second alert. *)
Theorem orchestrator_run_effects event answers rd rd' st d :
  heap st !! event = Some d →
  let outcome := (classify answers).1.1 in
  let st1 := (process_orchestrator_decision event answers rd st).2 in
  let st2 := (process_orchestrator_decision event answers rd' st1).2 in
  (∃ entry, orchestrator_log st1 = entry :: orchestrator_log st
            ∧ entry_event entry = event ∧ entry_answers entry = answers
            ∧ entry_outcome entry = outcome)
  ∧ (∃ a, alerts st1 = a :: alerts st ∧ alert_event a = event
          ∧ alert_dismissed a = false)
  ∧ heap st1 = <[event := <[lit "status" := PStr outcome]> d]> (heap st)
  ∧ deref (heap st1) event !! lit "status" = Some (PStr outcome)
  ∧ events st1 = events st
  ∧ length (orchestrator_log st2) = S (S (length (orchestrator_log st)))
  ∧ length (alerts st2) = S (S (length (alerts st))).
Proof.
  intros Hd outcome st1 st2. subst st2 st1 outcome.
  rewrite !process_orchestrator_decision_state. cbn [heap events orchestrator_log alerts length].
  assert (Hh : alter (insert (lit "status") (PStr (classify answers).1.1)) event (heap st)
               = <[event := <[lit "status" := PStr (classify answers).1.1]> d]> (heap st)).
  { apply map_eq. intros l. rewrite lookup_alter, lookup_insert.
    destruct (decide (event = l)) as [<-|]; [by rewrite Hd | done]. }
  rewrite Hh. repeat split; eauto.
  by rewrite deref_insert_eq, lookup_insert_eq.
Qed.

Lemma orchestrator_run_effects_witness :
  heap leak_session !! 1%positive = Some leak_event
  ∧ length (orchestrator_log
      (process_orchestrator_decision 1%positive (true, false, false) leak_readings
        (process_orchestrator_decision 1%positive (true, false, false)
           leak_readings leak_session).2).2) = 2%nat
  ∧ length (alerts
      (process_orchestrator_decision 1%positive (true, false, false) leak_readings
        (process_orchestrator_decision 1%positive (true, false, false)
           leak_readings leak_session).2).2) = 2%nat.
Proof.
  assert (H : heap leak_session !! 1%positive = Some leak_event)
    by apply lookup_singleton_eq.
  split; [exact H|].
  pose proof (orchestrator_run_effects 1%positive (true, false, false)
                leak_readings leak_readings leak_session leak_event H) as E.
  cbn zeta in E. destruct E as (_ & _ & _ & _ & _ & H1 & H2).
  split; [exact H1 | exact H2].
Defined.

(** C3, as the spec states it, fails: after escalating the pending event of
    [leak_session], the event read through the new log entry has status
    Escalate, not the status Pending it had when the entry was made. *)
Lemma entry_is_not_a_snapshot :
  ¬ entry_is_snapshot 1%positive (true, false, false) leak_readings leak_session.
Proof.
  unfold entry_is_snapshot. intros H.
  specialize (H _ eq_refl).
  apply (f_equal (λ e : dict, e !! lit "status")) in H.
  vm_compute in H. discriminate H.
Qed.

(** C3, amended. The entry holds the reference the orchestrator was called
    with, the one the event list holds, not a copy: the event read through
    the new entry after the run is the event of the call with its status
    set to the outcome, all other fields as they were. *)
Theorem entry_holds_live_reference event answers rd st d :
  heap st !! event = Some d →
  let outcome := (classify answers).1.1 in
  let st' := (process_orchestrator_decision event answers rd st).2 in
  ∃ entry,
    orchestrator_log st' = entry :: orchestrator_log st
    ∧ entry_event entry = event
    ∧ deref (heap st') (entry_event entry) = <[lit "status" := PStr outcome]> d
    ∧ deref (heap st') (entry_event entry) !! lit "status" = Some (PStr outcome)
    ∧ ∀ k, k ≠ lit "status" → deref (heap st') (entry_event entry) !! k = d !! k.
Proof.
  intros Hd outcome st'. subst st' outcome.
  rewrite process_orchestrator_decision_state. cbn [heap orchestrator_log].
  eexists. split; [reflexivity|]. cbn [entry_event]. split; [reflexivity|].
  assert (Hr : deref (alter (insert (lit "status") (PStr (classify answers).1.1))
                            event (heap st)) event
               = <[lit "status" := PStr (classify answers).1.1]> d).
  { apply deref_Some. by rewrite lookup_alter_eq, Hd. }
  rewrite Hr. split; [reflexivity|]. split.
  - apply lookup_insert_eq.
  - intros k Hk. by rewrite lookup_insert_ne.
Qed.

Lemma entry_holds_live_reference_witness :
  heap leak_session !! 1%positive = Some leak_event
  ∧ ∃ entry,
      head (orchestrator_log
        (process_orchestrator_decision 1%positive (true, false, false)
           leak_readings leak_session).2) = Some entry
      ∧ deref (heap (process_orchestrator_decision 1%positive (true, false, false)
                       leak_readings leak_session).2) (entry_event entry)
          !! lit "status" = Some (PStr (lit "Escalate")).
Proof.
  assert (H : heap leak_session !! 1%positive = Some leak_event)
    by apply lookup_singleton_eq.
  split; [exact H|].
  destruct (entry_holds_live_reference 1%positive (true, false, false)
              leak_readings leak_session leak_event H)
    as (entry & Hlog & _ & _ & Hs & _).
  exists entry. split; [by rewrite Hlog | exact Hs].
Defined.

(** ** Alerts *)

(** C4. Whatever the answers, the alert of an orchestrator run has urgency
    14400 and class alert-rounding: its type, one of Critical Safety,
    Compliance Drift, Asset Failure Risk and Rounding, is not a key of
    [risk_to_alert], whose keys are High, Medium, Low, Training and
    Compliance, so the entry of Low is taken. *)
Theorem orchestrator_alert_is_low event answers rd st :
  (∃ a, alerts (process_orchestrator_decision event answers rd st).2
        = a :: alerts st
        ∧ alert_type a = (classify answers).2
        ∧ alert_urgency a = 14400
        ∧ alert_class a = lit "alert-rounding")
  ∧ (classify answers).2 ∈ [lit "Critical Safety"; lit "Compliance Drift";
                            lit "Asset Failure Risk"; lit "Rounding"]
  ∧ risk_to_alert !! (classify answers).2 = None
  ∧ dom risk_to_alert
    = list_to_set [lit "High"; lit "Medium"; lit "Low"; lit "Training";
                   lit "Compliance"]
  ∧ risk_to_alert !! lit "Low" = Some (mk_alert_def (lit "alert-rounding") 14400).
Proof.
  split; [|split; [|split; [|split]]].
  - rewrite process_orchestrator_decision_state. cbn [alerts].
    eexists. split; [reflexivity|]. cbn [alert_type alert_urgency alert_class].
    rewrite classify_not_a_risk. split; [reflexivity|]. split; reflexivity.
  - destruct answers as [[[] []] []]; cbn [classify snd];
      repeat first [apply list_elem_of_here | apply list_elem_of_further].
  - apply classify_not_a_risk.
  - vm_compute. reflexivity.
  - vm_compute. reflexivity.
Qed.

(** C10. [format_urgency] shows minutes below 3600 seconds, hours below
    86400 and days from there on, the number being the floor of the
    quotient: the one [q] with [unit * q <= urgency < unit * q + unit]. *)
Theorem format_urgency_floor (a : alert) (q : Z) :
  (alert_urgency a < 3600 →
   60 * q <= alert_urgency a < 60 * q + 60 →
   format_urgency a = str_of_int q ++ lit "m")
  ∧ (3600 <= alert_urgency a < 86400 →
     3600 * q <= alert_urgency a < 3600 * q + 3600 →
     format_urgency a = str_of_int q ++ lit "h")
  ∧ (86400 <= alert_urgency a →
     86400 * q <= alert_urgency a < 86400 * q + 86400 →
     format_urgency a = str_of_int q ++ lit "d")
  ∧ (alert_urgency a = 59 → format_urgency a = lit "0m")
  ∧ (alert_urgency a = 60 → format_urgency a = lit "1m")
  ∧ (alert_urgency a = 900 → format_urgency a = lit "15m")
  ∧ (alert_urgency a = 3600 → format_urgency a = lit "1h")
  ∧ (alert_urgency a = 86399 → format_urgency a = lit "23h")
  ∧ (alert_urgency a = 86400 → format_urgency a = lit "1d").
Proof.
  unfold format_urgency.
  repeat split; try (intros ->; reflexivity).
  - intros H1 H2. rewrite (proj2 (Z.ltb_lt _ _) H1).
    by replace (alert_urgency a / 60) with q by (apply Z.div_unique_pos with (alert_urgency a - 60 * q); lia).
  - intros [H0 H1] H2.
    rewrite (proj2 (Z.ltb_ge _ _) H0), (proj2 (Z.ltb_lt _ _) H1).
    by replace (alert_urgency a / 3600) with q by (apply Z.div_unique_pos with (alert_urgency a - 3600 * q); lia).
  - intros H0 H2.
    assert (H1 : 3600 <= alert_urgency a) by lia.
    rewrite (proj2 (Z.ltb_ge _ _) H1), (proj2 (Z.ltb_ge _ _) H0).
    by replace (alert_urgency a / 86400) with q by (apply Z.div_unique_pos with (alert_urgency a - 86400 * q); lia).
Qed.

Lemma format_urgency_floor_witness :
  alert_urgency medium_alert < 3600
  ∧ 60 * 15 <= alert_urgency medium_alert < 60 * 15 + 60
  ∧ format_urgency medium_alert = str_of_int 15 ++ lit "m".
Proof.
  assert (H1 : alert_urgency medium_alert < 3600) by (cbn; lia).
  assert (H2 : 60 * 15 <= alert_urgency medium_alert < 60 * 15 + 60) by (cbn; lia).
  split; [exact H1|]. split; [exact H2|].
  exact (proj1 (format_urgency_floor medium_alert 15) H1 H2).
Defined.

(** ** Durable storage *)

(** C9. Loading is fail-open: when opening the events file fails (the file
    is missing) or [json.load] rejects its content (an empty or truncated
    file), and more generally when anything in the [try] raises,
    [load_events] returns the empty list; [load_events] itself has no
    exceptional result. The same holds for [load_todos]. *)
Theorem load_is_fail_open (fs : gmap (list N) file) :
  (∀ e, open_read fs EVENTS_FILE = Raise e → load_events fs = PList [])
  ∧ (∀ f e, open_read fs EVENTS_FILE = Ok f → json_load f = Raise e →
            load_events fs = PList [])
  ∧ (∀ e, load_events_try fs = Raise e → load_events fs = PList [])
  ∧ (fs !! EVENTS_FILE = None → load_events fs = PList [])
  ∧ (fs !! EVENTS_FILE = Some Unparsable → load_events fs = PList [])
  ∧ (∀ e, open_read fs TODOS_FILE = Raise e → load_todos fs = PList [])
  ∧ (∀ f e, open_read fs TODOS_FILE = Ok f → json_load f = Raise e →
            load_todos fs = PList [])
  ∧ (fs !! TODOS_FILE = None → load_todos fs = PList [])
  ∧ (fs !! TODOS_FILE = Some Unparsable → load_todos fs = PList []).
Proof.
  unfold load_events, load_events_try, load_todos, open_read.
  repeat split.
  - intros e H. by rewrite H.
  - intros f e H1 H2. rewrite H1. cbn. by rewrite H2.
  - intros e H. by rewrite H.
  - intros H. by rewrite H.
  - intros H. by rewrite H.
  - intros e H. by rewrite H.
  - intros f e H1 H2. rewrite H1. cbn. by rewrite H2.
  - intros H. by rewrite H.
  - intros H. by rewrite H.
Qed.

Lemma load_is_fail_open_witness :
  (∅ : gmap (list N) file) !! EVENTS_FILE = None
  ∧ load_events ∅ = PList []
  ∧ ({[EVENTS_FILE := Unparsable]} : gmap (list N) file) !! EVENTS_FILE
    = Some Unparsable
  ∧ load_events {[EVENTS_FILE := Unparsable]} = PList [].
Proof.
  assert (H1 : (∅ : gmap (list N) file) !! EVENTS_FILE = None)
    by apply lookup_empty.
  assert (H2 : ({[EVENTS_FILE := Unparsable]} : gmap (list N) file) !! EVENTS_FILE
               = Some Unparsable) by apply lookup_singleton_eq.
  split; [exact H1|]. split.
  - exact (proj1 (proj2 (proj2 (proj2 (load_is_fail_open ∅)))) H1).
  - split; [exact H2|].
    exact (proj1 (proj2 (proj2 (proj2 (proj2 (load_is_fail_open _))))) H2).
Defined.

(** *** Timestamps through their ISO form *)

Lemma length_digits w n : length (digits w n) = w.
Proof.
  revert n. induction w as [|w IH]; intros n; [done|].
  cbn. rewrite length_app, IH. cbn. lia.
Qed.

Lemma digit_val_digit r :
  0 <= r < 10 → digit_val (Z.to_N (48 + r)) = Some r.
Proof.
  intros Hr. unfold digit_val.
  assert (H : ((48 <=? Z.to_N (48 + r)) && (Z.to_N (48 + r) <=? 57))%N = true).
  { apply andb_true_intro. split; apply N.leb_le; lia. }
  rewrite H. f_equal. lia.
Qed.

Lemma number_from_app acc l1 l2 :
  number_from acc (l1 ++ l2) = number_from acc l1 ≫= λ v, number_from v l2.
Proof.
  revert acc. induction l1 as [|c l1 IH]; intros acc; [done|].
  cbn. destruct (digit_val c); cbn; [apply IH | done].
Qed.

Lemma number_from_digits w n acc :
  0 <= n < 10 ^ Z.of_nat w →
  number_from acc (digits w n) = Some (acc * 10 ^ Z.of_nat w + n).
Proof.
  revert n. induction w as [|w IH]; intros n Hn.
  - cbn in *. f_equal. lia.
  - rewrite Nat2Z.inj_succ, Z.pow_succ_r in * by lia.
    assert (0 <= n / 10 < 10 ^ Z.of_nat w).
    { split; [apply Z.div_pos; lia | apply Z.div_lt_upper_bound; lia]. }
    cbn [digits]. rewrite number_from_app, IH by done. cbn.
    rewrite digit_val_digit by (apply Z.mod_pos_bound; lia). cbn.
    f_equal. pose proof (Z.div_mod n 10). lia.
Qed.

Lemma field_digits w n rest :
  0 <= n < 10 ^ Z.of_nat w →
  field w (digits w n ++ rest) = Some (n, rest).
Proof.
  intros Hn. unfold field.
  rewrite take_app_length', drop_app_length' by (symmetry; apply length_digits).
  rewrite length_digits. rewrite bool_decide_eq_true_2 by done.
  rewrite number_from_digits by done. by rewrite Z.mul_0_l.
Qed.

Lemma days_in_month_le y m : days_in_month y m <= 31.
Proof.
  unfold days_in_month.
  repeat match goal with |- context [if ?b then _ else _] => destruct b end; lia.
Qed.

Lemma expect_cons c r : expect c (c :: r) = Some r.
Proof. cbn. by rewrite N.eqb_refl. Qed.

Lemma field_2 n rest :
  0 <= n < 100 → field 2 (digits 2 n ++ rest) = Some (n, rest).
Proof. apply (field_digits 2). Qed.

Lemma field_4 n rest :
  0 <= n < 10000 → field 4 (digits 4 n ++ rest) = Some (n, rest).
Proof. apply (field_digits 4). Qed.

(** [fromisoformat] undoes [isoformat] on every datetime object. *)
Lemma fromisoformat_isoformat d :
  valid_datetime d = true → fromisoformat (isoformat d) = Ok d.
Proof.
  intros Hv. unfold fromisoformat.
  assert (Hp : parse_iso (isoformat d) = Some d); [|by rewrite Hp, Hv].
  unfold valid_datetime in Hv.
  repeat (apply andb_prop in Hv; destruct Hv as [Hv ?]).
  pose proof (days_in_month_le (year d) (month d)).
  destruct d as [y m dd h mi s us];
    cbn [year month day hour minute second microsecond] in *.
  unfold parse_iso, parse_time, isoformat;
    cbn [year month day hour minute second microsecond].
  change (lit "-") with [45%N]. change (lit "T") with [84%N].
  change (lit ":") with [58%N]. change (lit ".") with [46%N].
  repeat first
    [ rewrite field_4 by lia
    | rewrite field_2 by lia
    | rewrite expect_cons
    | progress cbn [mbind option_bind app] ].
  destruct (Z.eqb_spec us 0) as [->|Hus]; [done|].
  rewrite expect_cons. cbn [mbind option_bind].
  rewrite length_digits, bool_decide_eq_true_2 by done.
  rewrite (number_from_digits 6) by (change (10 ^ Z.of_nat 6) with 1000000; lia).
  by rewrite Z.mul_0_l.
Qed.

Lemma json_ok_dict (m : gmap (list N) pyval) :
  json_ok (PDict m) = true ↔ ∀ k v, m !! k = Some v → json_ok v = true.
Proof.
  cbn [json_ok].
  apply (map_fold_weak_ind
           (λ b m, b = true ↔ ∀ k v, m !! k = Some v → json_ok v = true)).
  - split; [intros _ k v; by rewrite lookup_empty | done].
  - intros i x m' r Hi IH. rewrite andb_true_iff, IH. split.
    + intros [Hx Hm] k v. rewrite lookup_insert.
      case_decide; [by intros [= <-] | apply Hm].
    + intros H. split.
      * apply (H i). by rewrite lookup_insert_eq.
      * intros k v Hk. apply (H k). rewrite lookup_insert_ne; [done|].
        intros ->. by rewrite Hi in Hk.
Qed.

Lemma serializable_copy_json_ok e :
  storable e → json_ok (PDict (serializable_copy e)) = true.
Proof.
  intros [Ht Ho]. apply json_ok_dict. intros k v Hk.
  destruct (decide (k = lit "time")) as [->|Hne].
  - unfold serializable_copy in Hk.
    destruct (e !! lit "time") as [[]|] eqn:Et;
      first [ rewrite lookup_insert_eq in Hk; by injection Hk as <-
            | rewrite Et in Hk; by injection Hk as <-
            | done
            | by rewrite Et in Hk ].
  - apply (Ho k); [done|]. unfold serializable_copy in Hk.
    destruct (e !! lit "time") as [[]|]; try done.
    by rewrite lookup_insert_ne in Hk.
Qed.

Lemma restore_serializable_copy e :
  storable e → restore_time (PDict (serializable_copy e)) = Ok (PDict e).
Proof.
  intros [Ht _]. unfold restore_time, serializable_copy.
  destruct (e !! lit "time") as [[]|] eqn:Et; rewrite ?Et; try done.
  rewrite lookup_insert_eq, fromisoformat_isoformat by done. cbn.
  by rewrite insert_insert_eq, insert_id.
Qed.

(** Saving storable events succeeds, and loading returns them. *)
Lemma save_then_load (evs : list dict) (fs : gmap (list N) file) :
  Forall storable evs →
  (save_events evs fs).2 = Ok tt
  ∧ load_events (save_events evs fs).1 = PList (PDict <$> evs).
Proof.
  intros Hs.
  assert (Hok : json_ok (PList ((λ e, PDict (serializable_copy e)) <$> evs)) = true).
  { cbn [json_ok]. induction Hs as [|e evs He _ IH]; [done|].
    cbn [fmap list_fmap forallb]. rewrite serializable_copy_json_ok by done. apply IH. }
  assert (Hm : mapM restore_time ((λ e, PDict (serializable_copy e)) <$> evs)
               = Ok (PDict <$> evs)).
  { clear Hok. induction Hs as [|e evs He _ IH]; [done|].
    cbn [fmap list_fmap mapM]. rewrite restore_serializable_copy by done.
    cbn. cbn in IH. by rewrite IH. }
  unfold save_events, json_dump_to. rewrite Hok. cbn [fst snd].
  split; [done|].
  unfold load_events, load_events_try, open_read.
  rewrite lookup_insert_eq. cbn. cbn in Hm. by rewrite Hm.
Qed.

(** C8. Writing a list of storable events with [save_events] succeeds, and
    [load_events] on the file system it leaves returns that list, equal by
    value and in the same order; on the way each timestamp goes through its
    ISO string, from which [fromisoformat] rebuilds the datetime. *)
Theorem events_round_trip (evs : list dict) (fs : gmap (list N) file) :
  Forall storable evs →
  (save_events evs fs).2 = Ok tt
  ∧ load_events (save_events evs fs).1 = PList (PDict <$> evs)
  ∧ Forall (λ e : dict, ∀ d, e !! lit "time" = Some (PDatetime d) →
              serializable_copy e !! lit "time" = Some (PStr (isoformat d))
              ∧ fromisoformat (isoformat d) = Ok d) evs.
Proof.
  intros Hs. destruct (save_then_load evs fs Hs) as [Hok Hload].
  split; [exact Hok|]. split; [exact Hload|].
  eapply Forall_impl; [exact Hs|]. intros e [Ht _] d Hd.
  rewrite Hd in Ht. unfold serializable_copy. rewrite Hd, lookup_insert_eq.
  split; [done | by apply fromisoformat_isoformat].
Qed.

(** The events of a session stay storable: those a load returns are, the
    one the form makes is, and the orchestrator only sets a status. *)
Lemma restore_time_storable (m : gmap (list N) pyval) v :
  json_ok (PDict m) = true → restore_time (PDict m) = Ok v →
  ∃ m', v = PDict m' ∧ storable m'.
Proof.
  rewrite json_ok_dict. intros Hm. unfold restore_time.
  destruct (m !! lit "time") as [t|] eqn:Et.
  - destruct t as [| | | |s| | |];
      try (intros [= <-]; exists m; split; [done|]; split;
           [rewrite Et; by apply (Hm _ _ Et) | intros k x _; apply Hm]).
    + unfold fromisoformat. destruct (parse_iso s) as [d|]; [|done].
      destruct (valid_datetime d) eqn:Hv; [|done]. cbn. intros [= <-].
      eexists. split; [reflexivity|]. split.
      * by rewrite lookup_insert_eq.
      * intros k x Hk. rewrite lookup_insert_ne by done. apply Hm.
    + by specialize (Hm _ _ Et).
  - intros [= <-]. exists m. split; [done|]. split; [by rewrite Et|].
    intros k x _. apply Hm.
Qed.

Lemma mapM_restore_time_storable l l' :
  forallb json_ok l = true → mapM restore_time l = Ok l' →
  Forall (λ v, ∃ m : gmap (list N) pyval, v = PDict m ∧ storable m) l'.
Proof.
  revert l'. induction l as [|x l IH]; intros l' Hok.
  - intros [= <-]. apply Forall_nil_2.
  - cbn [forallb] in Hok. apply andb_prop in Hok as [Hx Hl].
    cbn [mapM]. destruct (restore_time x) as [y|] eqn:Ex; [|done].
    cbn [mbind result_bind]. destruct (mapM restore_time l) as [ys|]; [|done].
    cbn. intros [= <-]. apply Forall_cons. split; [|by apply IH].
    destruct x; try done. by eapply restore_time_storable.
Qed.

Lemma load_events_storable (fs : gmap (list N) file) l :
  (∀ v, fs !! EVENTS_FILE = Some (Doc v) → json_ok v = true) →
  load_events fs = PList l →
  Forall (λ v, ∃ m : gmap (list N) pyval, v = PDict m ∧ storable m) l.
Proof.
  intros Hfs. unfold load_events, load_events_try, open_read.
  destruct (fs !! EVENTS_FILE) as [[|v]|] eqn:Ef; cbn;
    try (intros [= <-]; apply Forall_nil_2).
  specialize (Hfs v eq_refl).
  destruct v as [| | | |s| |l0|m]; cbn;
    try (intros [= <-]; apply Forall_nil_2).
  - destruct (bool_decide (s = [])); [done|]. intros [= <-]. apply Forall_nil_2.
  - destruct (mapM restore_time l0) as [l'|] eqn:El; cbn.
    + intros [= <-]. by eapply mapM_restore_time_storable.
    + intros [= <-]. apply Forall_nil_2.
  - destruct (bool_decide (size m = 0%nat)); [done|].
    intros [= <-]. apply Forall_nil_2.
Qed.

Lemma process_orchestrator_decision_storable event answers rd st :
  Forall storable (event_values st) →
  Forall storable (event_values (process_orchestrator_decision event answers rd st).2).
Proof.
  rewrite process_orchestrator_decision_state. unfold event_values. cbn [heap events].
  rewrite !Forall_fmap. intros H. eapply Forall_impl; [exact H|].
  intros l. cbn. unfold deref. rewrite lookup_alter.
  case_decide as El; [|done]. subst l.
  destruct (heap st !! event) as [d|]; cbn; [|done]. intros [Ht Ho]. split.
  - by rewrite lookup_insert_ne.
  - intros k v Hk. rewrite lookup_insert. case_decide; [by intros [= <-] | by apply Ho].
Qed.

(** What a successful [save_events] leaves in the events file. *)
Lemma save_events_file (evs : list dict) (fs : gmap (list N) file) :
  (save_events evs fs).2 = Ok tt →
  (save_events evs fs).1 !! EVENTS_FILE
  = Some (Doc (PList ((λ e, PDict (serializable_copy e)) <$> evs))).
Proof.
  unfold save_events, json_dump_to.
  destruct (json_ok (PList ((λ e, PDict (serializable_copy e)) <$> evs)));
    cbn [fst snd]; [intros _ | discriminate].
  apply lookup_insert_eq.
Qed.

(** An event of the form is storable. *)
Lemma new_event_storable t event_type event_details now :
  valid_datetime now = true →
  storable (new_event t event_type event_details now).
Proof.
  intros Hv. unfold storable, new_event. split.
  - by rewrite !lookup_insert_ne, lookup_insert_eq by done.
  - intros k v Hk. rewrite !lookup_insert.
    repeat case_decide; try (by intros [= <-]); congruence.
Qed.

Lemma events_round_trip_witness :
  Forall storable [leak_event]
  ∧ load_events (save_events [leak_event] ∅).1 = PList [PDict leak_event].
Proof.
  assert (H : Forall storable [leak_event]).
  { apply Forall_cons. split; [|apply Forall_nil_2]. by apply new_event_storable. }
  split; [exact H|].
  exact (proj1 (proj2 (events_round_trip [leak_event] ∅ H))).
Defined.

(** ** Entry Points: appending an event *)

Lemma submit_event_eq event_type event_details t now st :
  event_details ≠ [] →
  let event := fresh (dom (heap st)) in
  let h := <[event := new_event t event_type event_details now]> (heap st) in
  let saved := save_events (deref h <$> event :: events st) (files st) in
  submit_event true event_type event_details t now st
  = (mk_state h (event :: events st) (orchestrator_log st) (alerts st)
              (todos st) saved.1, saved.2).
Proof.
  intros Hd. cbn zeta. unfold submit_event, event_values.
  cbn [truthy andb negb heap events orchestrator_log alerts todos files].
  rewrite bool_decide_eq_false_2 by done. cbn [negb].
  by destruct (save_events _ _).
Qed.

(** C7, as the spec states it, fails: the id is the reading of the clock,
    and nothing compares it with the ids of the store. A submission at the
    clock reading that is the id of the event of [leak_session] leaves two
    events with one id. *)
Lemma append_can_repeat_an_id :
  ids_unique leak_session
  ∧ ¬ ids_unique (submit_event true (lit "Scheduled Cycle") (lit "Weekly check")
                               1741953600 later leak_session).1.
Proof.
  unfold ids_unique. split.
  - assert (E : event_ids leak_session = [Some (PFloat 1741953600)])
      by (vm_compute; reflexivity).
    rewrite E. apply NoDup_singleton.
  - assert (E : event_ids (submit_event true (lit "Scheduled Cycle")
                             (lit "Weekly check") 1741953600 later leak_session).1
                = [Some (PFloat 1741953600); Some (PFloat 1741953600)])
      by (vm_compute; reflexivity).
    rewrite E. intros H. apply NoDup_cons in H as [H _].
    apply H. apply list_elem_of_here.
Qed.

(** C7, amended. A submission with details that are not empty makes a new
    event whose id is the clock reading, whose time is the current
    timestamp and whose status is Pending, and puts it at index 0 of the
    event list, before the earlier events in their order. When the
    timestamp is a datetime and the earlier events are storable, the whole
    list is written to the events file, from which it can be loaded again.
    The ids stay unique when they were unique and the clock reading is not
    the id of an event of the store. *)
Theorem submit_event_appends event_type event_details t now st :
  event_details ≠ [] →
  Forall (λ l, is_Some (heap st !! l)) (events st) →
  let event := new_event t event_type event_details now in
  let st' := (submit_event true event_type event_details t now st).1 in
  (∃ l, heap st !! l = None ∧ events st' = l :: events st
        ∧ deref (heap st') l = event)
  ∧ event_values st' = event :: event_values st
  ∧ event_values st' !! 0%nat = Some event
  ∧ event !! lit "id" = Some (PFloat t)
  ∧ event !! lit "time" = Some (PDatetime now)
  ∧ event !! lit "status" = Some (PStr (lit "Pending"))
  ∧ (valid_datetime now = true → Forall storable (event_values st) →
     (submit_event true event_type event_details t now st).2 = Ok tt
     ∧ files st' !! EVENTS_FILE
       = Some (Doc (PList ((λ e, PDict (serializable_copy e)) <$> event_values st')))
     ∧ load_events (files st') = PList (PDict <$> event_values st'))
  ∧ (ids_unique st → Some (PFloat t) ∉ event_ids st → ids_unique st').
Proof.
  intros Hd Hrefs event st'. subst st'.
  rewrite submit_event_eq by done. cbn [fst snd]. fold event.
  set (l := fresh (dom (heap st))).
  assert (Hl : heap st !! l = None).
  { apply not_elem_of_dom. apply is_fresh. }
  assert (Hv : deref (<[l := event]> (heap st)) <$> l :: events st
               = event :: event_values st).
  { cbn [fmap list_fmap]. rewrite deref_insert_eq. f_equal.
    unfold event_values. apply list_fmap_ext. intros i l' Hi.
    apply deref_insert_ne. intros <-.
    rewrite Forall_lookup in Hrefs. destruct (Hrefs i l Hi) as [? Hs]. congruence. }
  assert (Hvals : event_values
            (mk_state (<[l := event]> (heap st)) (l :: events st)
               (orchestrator_log st) (alerts st) (todos st)
               (save_events (deref (<[l := event]> (heap st)) <$> l :: events st)
                            (files st)).1)
          = event :: event_values st) by exact Hv.
  assert (Hid : event !! lit "id" = Some (PFloat t)) by apply lookup_insert_eq.
  split; [|split; [|split; [|split; [|split; [|split; [|split]]]]]].
  - exists l. split; [done|]. split; [done|]. apply deref_insert_eq.
  - exact Hvals.
  - by rewrite Hvals.
  - exact Hid.
  - subst event. unfold new_event.
    rewrite !lookup_insert_ne by done. apply lookup_insert_eq.
  - subst event. unfold new_event.
    rewrite !lookup_insert_ne by done. apply lookup_insert_eq.
  - intros Hnow Hst. rewrite Hvals. cbn [files]. rewrite Hv.
    assert (Hall : Forall storable (event :: event_values st)).
    { apply Forall_cons. split; [by apply new_event_storable | done]. }
    destruct (save_then_load (event :: event_values st) (files st) Hall)
      as (Hok & Hload).
    split; [exact Hok|]. split; [|exact Hload].
    by apply save_events_file.
  - unfold ids_unique, event_ids. rewrite Hvals. cbn [fmap list_fmap].
    rewrite Hid. intros Hu Hn. by apply NoDup_cons.
Qed.

Lemma submit_event_appends_witness :
  lit "Weekly check" ≠ []
  ∧ Forall (λ l, is_Some (heap leak_session !! l)) (events leak_session)
  ∧ event_values (submit_event true (lit "Scheduled Cycle") (lit "Weekly check")
                               1741953660 later leak_session).1
    = [new_event 1741953660 (lit "Scheduled Cycle") (lit "Weekly check") later;
       leak_event].
Proof.
  assert (H1 : lit "Weekly check" ≠ []) by done.
  assert (H2 : Forall (λ l, is_Some (heap leak_session !! l)) (events leak_session)).
  { apply Forall_cons. split; [|apply Forall_nil_2].
    exists leak_event. apply lookup_singleton_eq. }
  split; [exact H1|]. split; [exact H2|].
  destruct (submit_event_appends (lit "Scheduled Cycle") (lit "Weekly check")
              1741953660 later leak_session H1 H2) as (_ & Hv & _).
  rewrite Hv. reflexivity.
Defined.

(** ** Dashboard: todos from the LLM's answer *)

Lemma startswith_app p s :
  startswith p s = true → ∃ post, s = p ++ post.
Proof.
  revert s. induction p as [|a p IH]; intros s H; [by exists s|].
  destruct s as [|b s]; [done|]. cbn in H.
  apply andb_prop in H as [Hab Hp]. apply N.eqb_eq in Hab as ->.
  destruct (IH _ Hp) as [post ->]. by exists post.
Qed.

Lemma contains_app sub s :
  contains sub s = true → ∃ pre post, s = pre ++ sub ++ post.
Proof.
  induction s as [|c s IH]; cbn; intros H.
  - rewrite orb_false_r in H. apply startswith_app in H as [post ->].
    by exists [], post.
  - apply orb_prop in H as [H|H].
    + apply startswith_app in H as [post ->]. by exists [], post.
    + destruct (IH H) as (pre & post & ->). by exists (c :: pre), post.
Qed.

Lemma split_not_nil sep s : split sep s ≠ [].
Proof.
  destruct s as [|c s]; [done|]. cbn.
  destruct (c =? sep)%N; [done|]. by destruct (split sep s).
Qed.

Lemma length_split_pos sep s : (1 <= length (split sep s))%nat.
Proof.
  pose proof (split_not_nil sep s). destruct (split sep s); [done | cbn; lia].
Qed.

Lemma length_split_app sep a b :
  length (split sep (a ++ sep :: b))
  = (length (split sep a) + length (split sep b))%nat.
Proof.
  induction a as [|c a IH].
  - cbn. by rewrite N.eqb_refl.
  - cbn. destruct (c =? sep)%N; cbn; [by rewrite IH|].
    pose proof (split_not_nil sep (a ++ sep :: b)).
    pose proof (split_not_nil sep a).
    destruct (split sep (a ++ sep :: b)), (split sep a); try done.
Qed.

(** A line with both markers has at least two bars. *)
Lemma qualifies_two_bars line :
  qualifies line = true → ∃ a b c, line = a ++ 124%N :: b ++ 124%N :: c.
Proof.
  unfold qualifies. intros H. apply andb_prop in H as [Hr Ha].
  apply contains_app in Hr as (p1 & q1 & E1).
  apply contains_app in Ha as (p2 & q2 & E2).
  rewrite E1 in E2. apply app_eq_app in E2 as [l [[-> E]|[-> E]]].
  - destruct l as [|c l]; [discriminate E|].
    cbn in E. injection E as <- E.
    exists p2, l, (tl (lit "| Risk:") ++ q1).
    rewrite E1, <-(assoc_L (++)). reflexivity.
  - destruct l as [|c l]; [discriminate E|].
    cbn in E. injection E as <- E.
    exists p1, l, (tl (lit "| Action:") ++ q2).
    rewrite E1. cbn. rewrite E. reflexivity.
Qed.

Lemma qualifies_three_parts line :
  qualifies line = true →
  ∃ p0 p1 p2 rest, split 124 line = p0 :: p1 :: p2 :: rest.
Proof.
  intros H. apply qualifies_two_bars in H as (a & b & c & ->).
  pose proof (length_split_app 124 a (b ++ 124%N :: c)) as L.
  rewrite (length_split_app 124 b c) in L.
  pose proof (length_split_pos 124 a). pose proof (length_split_pos 124 b).
  pose proof (length_split_pos 124 c).
  destruct (split 124 (a ++ 124%N :: b ++ 124%N :: c)) as [|p0 [|p1 [|p2 rest]]];
    cbn in L; try lia.
  by exists p0, p1, p2, rest.
Qed.

Lemma todo_fields_ok line p0 p1 p2 rest :
  split 124 line = p0 :: p1 :: p2 :: rest →
  todo_fields line = Ok (strip (replace (lit "Event:") [] p0),
                         strip (replace (lit "Risk:") [] p1),
                         strip (replace (lit "Action:") [] p2)).
Proof. unfold todo_fields. by intros ->. Qed.

Lemma matching_event_total (x : pystr) (h : gmap loc (gmap (list N) pyval))
    (evs : list loc) :
  Forall (has_details h) evs → ∃ m, matching_event x h evs = Ok m.
Proof.
  induction 1 as [|e evs [s Hs] _ IH]; [by exists None|].
  cbn [matching_event]. unfold getitem. rewrite Hs. cbn.
  destruct (contains x s); [by exists (Some e) | exact IH].
Qed.

Lemma filter_qualifies_nil lines :
  Forall (λ line, qualifies line = false) lines →
  filter (λ line, qualifies line = true) lines = [].
Proof.
  induction 1 as [|line ls Hl _ IH]; [done|].
  rewrite filter_cons, decide_False by congruence. exact IH.
Qed.

Lemma new_todo_json_ok e r a : json_ok (new_todo e r a) = true.
Proof.
  apply json_ok_dict. intros k v. rewrite !lookup_insert.
  repeat case_decide; try (by intros [= <-]); by rewrite lookup_empty.
Qed.

Lemma is_todo_of_json_ok lines new :
  Forall2 is_todo_of lines new → json_ok (PList new) = true.
Proof.
  cbn [json_ok]. induction 1 as [|line t lines new (?&?&?&?&_&->) _ IH]; [done|].
  cbn [forallb]. by rewrite new_todo_json_ok.
Qed.

(** Every event that the form adds has a string as details, and the
    orchestrator leaves the details alone: only an events file written
    elsewhere brings events without. *)
Lemma submit_event_has_details submitted event_type event_details t now st :
  Forall (has_details (heap st)) (events st) →
  let st' := (submit_event submitted event_type event_details t now st).1 in
  Forall (has_details (heap st')) (events st').
Proof.
  intros Hd. cbn zeta. unfold submit_event.
  destruct (submitted && truthy (PStr event_details)); [|exact Hd].
  destruct (save_events _ _) as [fs r]. cbn [fst heap events].
  apply Forall_cons. split.
  - exists event_details. rewrite deref_insert_eq. unfold new_event.
    rewrite !lookup_insert_ne by done. apply lookup_insert_eq.
  - eapply Forall_impl; [exact Hd|]. intros e [s Hs]. exists s.
    rewrite deref_insert_ne; [exact Hs|]. intros <-.
    pose proof (is_fresh (dom (heap st))) as Hf.
    apply not_elem_of_dom in Hf. unfold deref in Hs. rewrite Hf in Hs.
    cbn [from_option] in Hs. by rewrite lookup_empty in Hs.
Qed.

Lemma process_orchestrator_decision_has_details event answers rd st :
  Forall (has_details (heap st)) (events st) →
  let st' := (process_orchestrator_decision event answers rd st).2 in
  Forall (has_details (heap st')) (events st').
Proof.
  intros Hd. cbn zeta. rewrite process_orchestrator_decision_state.
  cbn [heap events]. eapply Forall_impl; [exact Hd|].
  intros l [s Hs]. exists s. revert Hs. unfold deref. rewrite lookup_alter.
  case_decide as El; [|done]. subst l.
  destruct (heap st !! event) as [d|]; cbn; [|done].
  intros Hs. by rewrite lookup_insert_ne.
Qed.

Section TodoLoop.

(** The readings of the environment for the alerts of the loop. *)
Variable env : nat → Z * datetime.

(** The loop never raises on events with details; it touches the alerts
    only, and appends to [new_todos] the todos of the qualifying lines in
    their order. *)
Lemma parse_lines_spec lines :
  ∀ i acc st,
    Forall (has_details (heap st)) (events st) →
    ∃ new st',
      parse_lines env i lines acc st = Ok (acc ++ new, st')
      ∧ Forall2 is_todo_of (filter (λ line, qualifies line = true) lines) new
      ∧ heap st' = heap st ∧ events st' = events st
      ∧ orchestrator_log st' = orchestrator_log st
      ∧ todos st' = todos st ∧ files st' = files st.
Proof.
  induction lines as [|line lines IH]; intros i acc st Hd.
  - exists [], st. cbn. rewrite (right_id_L [] (++)). by repeat split.
  - cbn [parse_lines]. rewrite filter_cons.
    destruct (qualifies line) eqn:Hq.
    + rewrite decide_True by done.
      destruct (qualifies_three_parts line Hq) as (p0 & p1 & p2 & rest & Hsplit).
      rewrite (todo_fields_ok _ _ _ _ _ Hsplit). cbn [mbind result_bind].
      destruct (matching_event_total (strip (replace (lit "Event:") [] p0)) _ _ Hd)
        as [m ->].
      cbn [mbind result_bind].
      match goal with |- context [parse_lines env (S i) lines ?acc' ?st1] =>
        destruct (IH (S i) acc' st1) as (new & st' & -> & Hnew & Hh & He & Ho & Ht & Hf)
      end.
      { destruct m as [e|]; [|done].
        destruct (truthy _); [|done]. exact Hd. }
      exists (new_todo (strip (replace (lit "Event:") [] p0))
                       (strip (replace (lit "Risk:") [] p1))
                       (strip (replace (lit "Action:") [] p2)) :: new), st'.
      split; [by rewrite <-(assoc_L (++))|].
      split; [apply Forall2_cons; split; [by exists p0, p1, p2, rest | done]|].
      rewrite Hh, He, Ho, Ht, Hf.
      destruct m as [e|]; [|done]. by destruct (truthy _).
    + rewrite decide_False by done. by apply IH.
Qed.

(** C5, amended. A line of the answer gives a todo exactly when it holds
    both [| Risk:] and [| Action:]; such a line always has three parts when
    cut at the bars, so the loop never raises on it. The todo holds, for
    the first three parts, the part without the occurrences of [Event:],
    [Risk:] and [Action:] respectively and without surrounding whitespace,
    and [done] false. The todos come in the order of the lines, other lines
    are skipped, and an answer without qualifying line gives no todo. The
    spec's example gives its two todos. *)
Theorem todo_parsing text st :
  Forall (has_details (heap st)) (events st) →
  ∃ new_todos st',
    parse_lines env 0 (splitlines text) [] st = Ok (new_todos, st')
    ∧ Forall2 is_todo_of
        (filter (λ line, qualifies line = true) (splitlines text)) new_todos
    ∧ length new_todos
      = length (filter (λ line, qualifies line = true) (splitlines text))
    ∧ Forall (λ t, ∃ m : gmap (list N) pyval,
                t = PDict m ∧ m !! lit "done" = Some (PBool false)) new_todos
    ∧ (Forall (λ line, qualifies line = false) (splitlines text) →
       new_todos = [])
    ∧ parse_lines env 0 (splitlines example_answer) [] empty_session
      = Ok ([new_todo (lit "Pump leak") (lit "High") (lit "Inspect valve");
             new_todo (lit "Sensor drift") (lit "Low") (lit "Recalibrate")],
            empty_session).
Proof.
  intros Hd.
  destruct (parse_lines_spec (splitlines text) 0%nat [] st Hd)
    as (new & st' & Hp & Hnew & _).
  exists new, st'. split; [exact Hp|]. split; [exact Hnew|].
  split; [symmetry; by eapply Forall2_length|]. split; [|split].
  - clear Hp. induction Hnew as [|line t ls ts (?&?&?&?&_&->) _ IH]; [done|].
    apply Forall_cons. split; [|exact IH].
    eexists. split; [reflexivity|].
    rewrite !lookup_insert_ne by done. apply lookup_insert_eq.
  - intros Hn. rewrite (filter_qualifies_nil _ Hn) in Hnew. by inversion Hnew.
  - vm_compute. reflexivity.
Qed.

(** Whenever the loop returns, it has appended the todos of the qualifying
    lines, and left the todos and the files of the session alone. *)
Lemma parse_lines_returns lines :
  ∀ i acc st r st',
    parse_lines env i lines acc st = Ok (r, st') →
    ∃ new,
      r = acc ++ new
      ∧ Forall2 is_todo_of (filter (λ line, qualifies line = true) lines) new
      ∧ todos st' = todos st ∧ files st' = files st.
Proof.
  induction lines as [|line lines IH]; intros i acc st r st' H.
  - injection H as <- <-. exists []. by rewrite (right_id_L [] (++)).
  - cbn [parse_lines] in H. rewrite filter_cons.
    destruct (qualifies line) eqn:Hq.
    + rewrite decide_True by done.
      destruct (qualifies_three_parts line Hq) as (p0 & p1 & p2 & rest & Hsplit).
      rewrite (todo_fields_ok _ _ _ _ _ Hsplit) in H. cbn [mbind result_bind] in H.
      destruct (matching_event (strip (replace (lit "Event:") [] p0))
                  (heap st) (events st)) as [m|] eqn:Em; [|done].
      cbn [mbind result_bind] in H.
      apply IH in H as (new & -> & Hnew & Ht & Hf).
      exists (new_todo (strip (replace (lit "Event:") [] p0))
                       (strip (replace (lit "Risk:") [] p1))
                       (strip (replace (lit "Action:") [] p2)) :: new).
      split; [by rewrite <-(assoc_L (++))|].
      split; [apply Forall2_cons; split; [by exists p0, p1, p2, rest | done]|].
      rewrite Ht, Hf. destruct m as [e|]; [|done]. by destruct (truthy _).
    + rewrite decide_False by done. by apply IH in H.
Qed.

(** Lines that do not qualify are passed over. *)
Lemma parse_lines_skips lines :
  Forall (λ line, qualifies line = false) lines →
  ∀ i acc st, parse_lines env i lines acc st = Ok (acc, st).
Proof.
  induction 1 as [|line lines Hq _ IH]; intros i acc st; [done|].
  cbn [parse_lines]. rewrite Hq. apply IH.
Qed.

(** What follows the loop: the list it returns replaces the todos and is
    saved, unless it is empty. *)
Lemma update_todos_after_parse text st new st1 :
  parse_lines env 0 (splitlines text) [] st = Ok (new, st1) →
  Forall2 is_todo_of
    (filter (λ line, qualifies line = true) (splitlines text)) new →
  update_todos env (Some text) st
  = Ok (if bool_decide (new = []) then
          (if bool_decide (text = []) then st else st1)
        else mk_state (heap st1) (events st1) (orchestrator_log st1)
               (alerts st1) (PList new)
               (<[TODOS_FILE := Doc (PList new)]> (files st1))).
Proof.
  intros Hp Hnew. unfold update_todos. cbn [truthy].
  destruct (bool_decide_reflect (text = [])) as [->|Htext]; cbn [negb].
  - cbn in Hp. injection Hp as <- <-. by rewrite bool_decide_eq_true_2.
  - rewrite Hp. cbn [mbind result_bind truthy].
    destruct (bool_decide_reflect (new = [])) as [->|Hne]; cbn [negb]; [done|].
    unfold save_todos, json_dump_to.
    by rewrite (is_todo_of_json_ok _ _ Hnew).
Qed.

(** C6, amended. On a store whose events all have a string as details,
    the parsing of an answer always ends. Whenever it ends and at least
    one line of the answer qualified, the todos of the session are the
    newly parsed list, in place of the earlier ones, and that list is
    written to the todos file. When no line qualifies, on any store, or
    when there is no answer, the session and its files stay as they
    were. *)
Theorem todos_replaced_or_kept text st :
  (Forall (has_details (heap st)) (events st) →
   ∃ st', update_todos env (Some text) st = Ok st')
  ∧ (∀ st',
       update_todos env (Some text) st = Ok st' →
       Exists (λ line, qualifies line = true) (splitlines text) →
       ∃ new_todos st1,
         parse_lines env 0 (splitlines text) [] st = Ok (new_todos, st1)
         ∧ new_todos ≠ []
         ∧ todos st' = PList new_todos
         ∧ files st' = <[TODOS_FILE := Doc (PList new_todos)]> (files st)
         ∧ load_todos (files st') = PList new_todos)
  ∧ (Forall (λ line, qualifies line = false) (splitlines text) →
     update_todos env (Some text) st = Ok st)
  ∧ update_todos env None st = Ok st.
Proof.
  split; [|split; [|split; [|done]]].
  - intros Hd.
    destruct (parse_lines_spec (splitlines text) 0%nat [] st Hd)
      as (new & st1 & Hp & Hnew & _).
    cbn [app] in Hp. eexists. exact (update_todos_after_parse _ _ _ _ Hp Hnew).
  - intros st' Hu Hex.
    destruct (parse_lines env 0 (splitlines text) [] st) as [[new st1]|err] eqn:Hp.
    + destruct (parse_lines_returns _ _ _ _ _ _ Hp) as (new' & Hr & Hnew & Ht & Hf).
      cbn [app] in Hr. subst new'.
      rewrite (update_todos_after_parse _ _ _ _ Hp Hnew) in Hu.
      assert (Hne : new ≠ []).
      { intros ->. apply Forall2_nil_inv_r in Hnew.
        apply Exists_exists in Hex as (line & Hin & Hq).
        assert (Hin' : line ∈ filter (λ line, qualifies line = true)
                                (splitlines text))
          by (apply list_elem_of_filter; split; done).
        rewrite Hnew in Hin'. by apply not_elem_of_nil in Hin'. }
      rewrite bool_decide_eq_false_2 in Hu by done. injection Hu as <-.
      exists new, st1. cbn [todos files].
      split; [done|]. split; [done|]. split; [done|]. split; [by rewrite Hf|].
      unfold load_todos, open_read. by rewrite lookup_insert_eq.
    + exfalso. unfold update_todos in Hu. cbn [truthy] in Hu.
      destruct (bool_decide_reflect (text = [])) as [->|Htext];
        [by inversion Hex|].
      cbn [negb] in Hu. by rewrite Hp in Hu.
  - intros Hn.
    pose proof (parse_lines_skips _ Hn 0%nat [] st) as Hp.
    rewrite (update_todos_after_parse _ _ _ _ Hp).
    + rewrite bool_decide_eq_true_2 by done.
      by destruct (bool_decide (text = [])).
    + rewrite (filter_qualifies_nil _ Hn). apply Forall2_nil_2.
Qed.

End TodoLoop.

Lemma leak_session_has_details :
  Forall (has_details (heap leak_session)) (events leak_session).
Proof.
  apply Forall_cons. split; [|apply Forall_nil_2].
  exists (lit "Pump leak in unit 3"). vm_compute. reflexivity.
Qed.

Lemma todo_parsing_witness :
  Forall (has_details (heap leak_session)) (events leak_session)
  ∧ ∃ new_todos st',
      parse_lines clock_readings 0 (splitlines example_answer) [] leak_session
      = Ok (new_todos, st')
      ∧ length new_todos = 2%nat.
Proof.
  pose proof leak_session_has_details as H.
  split; [exact H|].
  destruct (todo_parsing clock_readings example_answer leak_session H)
    as (new & st' & Hp & _ & Hl & _).
  exists new, st'. split; [exact Hp|]. rewrite Hl. vm_compute. reflexivity.
Defined.

Lemma todos_replaced_or_kept_witness :
  Forall (has_details (heap leak_session)) (events leak_session)
  ∧ ∃ st', update_todos clock_readings (Some example_answer) leak_session = Ok st'
           ∧ todos st' = PList [new_todo (lit "Pump leak") (lit "High")
                                         (lit "Inspect valve");
                                new_todo (lit "Sensor drift") (lit "Low")
                                         (lit "Recalibrate")].
Proof.
  pose proof leak_session_has_details as H.
  split; [exact H|].
  destruct (todos_replaced_or_kept clock_readings example_answer leak_session)
    as (Hret & Hrep & _).
  destruct (Hret H) as [st' Hu].
  exists st'. split; [exact Hu|].
  destruct (Hrep st' Hu) as (new & st1 & Hp & _ & Ht & _).
  { apply Exists_cons_hd. vm_compute. reflexivity. }
  rewrite Ht. f_equal.
  vm_compute in Hp. injection Hp as <- _. vm_compute. reflexivity.
Defined.

(** C6, as the spec states it, fails on a store with an event whose
    details are no string, as an events file written elsewhere brings in:
    [foreign_file] holds one event with [null] as details, and
    [load_events] returns it. The first line of the answer qualifies, the
    search for its event evaluates [event_part in None] and raises
    TypeError, and the todos are not replaced. *)
Lemma todos_not_replaced_on_null_details :
  load_events (files null_details_session)
  = PList (PDict <$> event_values null_details_session)
  ∧ Exists (λ line, qualifies line = true) (splitlines example_answer)
  ∧ update_todos clock_readings (Some example_answer) null_details_session
    = Raise TypeError
  ∧ ¬ todos_follow_answer clock_readings example_answer null_details_session.
Proof.
  assert (Hu : update_todos clock_readings (Some example_answer)
                 null_details_session = Raise TypeError)
    by (vm_compute; reflexivity).
  split; [vm_compute; reflexivity|].
  split; [apply Exists_cons_hd; vm_compute; reflexivity|].
  split; [exact Hu|].
  intros (st' & H & _). rewrite Hu in H. discriminate H.
Qed.

(** On the spec's example the loop and the spec's reading agree. *)
Lemma example_parses_as_spec :
  parses_as_spec clock_readings example_answer empty_session.
Proof. exists empty_session. vm_compute. reflexivity. Qed.

(** C5, as the spec states it, fails: the labels are not stripped as
    prefixes but removed wherever they occur in the segment. For the line
    [Event: Contractor Event: badge expired | Risk: Low | Action: Renew badge]
    the loop gives the event text "Contractor  badge expired", not
    "Contractor Event: badge expired". *)
Lemma label_is_removed_inside_the_text :
  ¬ parses_as_spec clock_readings contractor_answer empty_session.
Proof.
  intros [st' H].
  apply (f_equal (λ r, match r with
                       | Ok (PDict m :: _, _) => m !! lit "event"
                       | _ => None
                       end)) in H.
  vm_compute in H. discriminate H.
Qed.

(** * Properties of the rest of the module *)

(** ** Stripping *)

Lemma lstrip_drop_while s : lstrip s = drop_while is_space s.
Proof. induction s as [|c r IH]; [done|]. cbn. by rewrite IH. Qed.

Lemma lstrip_chars_drop_while chars s :
  lstrip_chars chars s = drop_while (λ c, bool_decide (c ∈ chars)) s.
Proof. induction s as [|c r IH]; [done|]. cbn. by rewrite IH. Qed.

Lemma last_rev (l : pystr) : last (rev l) = head l.
Proof. destruct l as [|c r]; [done|]. cbn. apply last_snoc. Qed.

Lemma head_rev (l : pystr) : head (rev l) = last l.
Proof. by rewrite <-(rev_involutive l) at 2; rewrite last_rev. Qed.

Section DropWhile.

Variable p : N → bool.

Lemma drop_while_suffix s : ∃ pre, s = pre ++ drop_while p s.
Proof.
  induction s as [|c r [pre IH]]; [by exists []|]. cbn.
  destruct (p c); [|by exists []].
  exists (c :: pre). cbn. by rewrite <-IH.
Qed.

Lemma drop_while_head s c r : drop_while p s = c :: r → p c = false.
Proof.
  induction s as [|c' r' IH]; [done|]. cbn.
  destruct (p c') eqn:E; [exact IH|]. by intros [= <- <-].
Qed.

Lemma drop_while_id s :
  (∀ c, head s = Some c → p c = false) → drop_while p s = s.
Proof. destruct s as [|c r]; [done|]. intros H. cbn. by rewrite (H c). Qed.

Lemma drop_while_idemp s : drop_while p (drop_while p s) = drop_while p s.
Proof.
  apply drop_while_id. intros c Hc.
  destruct (drop_while p s) as [|c' r] eqn:E; [done|].
  injection Hc as <-. by eapply drop_while_head.
Qed.

(** Trimming both ends: [rev (drop_while p (rev (drop_while p s)))]. *)
Lemma trim_prefix u : ∃ w, u = rev (drop_while p (rev u)) ++ w.
Proof.
  destruct (drop_while_suffix (rev u)) as [pre E].
  exists (rev pre). rewrite <-rev_app_distr, <-E. by rewrite rev_involutive.
Qed.

Lemma trim_head s c :
  head (rev (drop_while p (rev (drop_while p s)))) = Some c → p c = false.
Proof.
  destruct (trim_prefix (drop_while p s)) as [w E].
  destruct (rev (drop_while p (rev (drop_while p s)))) as [|c' v] eqn:Ev; [done|].
  intros [= <-]. cbn in E. by eapply drop_while_head.
Qed.

Lemma trim_last s c :
  last (rev (drop_while p (rev (drop_while p s)))) = Some c → p c = false.
Proof.
  rewrite last_rev. intros H.
  destruct (drop_while p (rev (drop_while p s))) as [|c' v] eqn:E; [done|].
  injection H as <-. by eapply drop_while_head.
Qed.

Lemma trim_id s :
  (∀ c, head s = Some c → p c = false) →
  (∀ c, last s = Some c → p c = false) →
  rev (drop_while p (rev (drop_while p s))) = s.
Proof.
  intros Hh Hl. rewrite (drop_while_id s Hh).
  rewrite drop_while_id; [apply rev_involutive|].
  intros c. rewrite head_rev. apply Hl.
Qed.

End DropWhile.

Lemma strip_drop_while s :
  strip s = rev (drop_while is_space (rev (drop_while is_space s))).
Proof. unfold strip, rstrip. by rewrite !lstrip_drop_while. Qed.

Lemma strip_chars_drop_while chars s :
  strip_chars chars s
  = rev (drop_while (λ c, bool_decide (c ∈ chars))
           (rev (drop_while (λ c, bool_decide (c ∈ chars)) s))).
Proof. unfold strip_chars, rstrip_chars. by rewrite !lstrip_chars_drop_while. Qed.

Lemma strip_idemp s : strip (strip s) = strip s.
Proof.
  rewrite (strip_drop_while (strip s)). apply trim_id; intros c;
    rewrite strip_drop_while; [apply trim_head | apply trim_last].
Qed.

(** ** The bullet-list reader *)

Lemma extract_todos_loop_eq lines todos :
  extract_todos_loop lines todos
  = todos ++ filter (λ t, t ≠ [])
               ((λ line, strip (strip_chars bullet_chars line)) <$> lines).
Proof.
  revert todos. induction lines as [|line lines IH]; intros todos.
  - cbn. by rewrite (right_id_L [] (++)).
  - cbn [extract_todos_loop fmap list_fmap truthy]. rewrite filter_cons.
    destruct (decide (strip (strip_chars bullet_chars line) ≠ [])) as [Hn|Hn].
    + rewrite bool_decide_eq_false_2 by done. cbn [negb].
      by rewrite IH, <-(assoc_L (++)).
    + apply dec_stable in Hn. rewrite Hn. cbn. apply IH.
Qed.

(** X1. Every item [extract_todos_from_ai] returns is the trimmed rest of
    a line of the text, is not empty and has no whitespace at its ends; the
    items come in the order of their lines, and there are at most as many
    items as lines. *)
Theorem extract_todos_items text :
  extract_todos_from_ai text
  = filter (λ t, t ≠ [])
      ((λ line, strip (strip_chars bullet_chars line)) <$> splitlines text)
  ∧ (length (extract_todos_from_ai text) <= length (splitlines text))%nat
  ∧ ∀ item, item ∈ extract_todos_from_ai text →
      item ≠ [] ∧ strip item = item
      ∧ (∀ c, head item = Some c → is_space c = false)
      ∧ (∀ c, last item = Some c → is_space c = false).
Proof.
  unfold extract_todos_from_ai. rewrite extract_todos_loop_eq. cbn [app].
  split; [done|]. split.
  - etrans; [apply length_filter|]. by rewrite length_fmap.
  - intros item [Hne Hin]%list_elem_of_filter.
    apply list_elem_of_fmap in Hin as (line & -> & _).
    split; [done|]. split; [apply strip_idemp|].
    split; intros c; rewrite strip_drop_while; [apply trim_head | apply trim_last].
Qed.

Lemma splitlines_from_cons cur c r :
  splitlines_from cur (c :: r)
  = if is_linebreak c
    then rev cur :: splitlines_from []
           (match r with
            | c' :: r' => if ((c =? 13) && (c' =? 10))%N then r' else r
            | [] => r
            end)
    else splitlines_from (c :: cur) r.
Proof.
  cbn [splitlines_from]. destruct (is_linebreak c); [|done].
  destruct (N.eqb_spec c 13) as [->|Hc].
  - destruct r as [|c' r']; [done|].
    destruct (N.eqb_spec c' 10) as [->|Hc']; [done|]. cbn [andb].
    repeat (match goal with
            | |- context [match ?x with _ => _ end] => destruct x; try done
            end).
  - cbn [andb].
    assert (E : match r with c' :: r' => if false then r' else r | [] => r end = r)
      by (by destruct r).
    rewrite E.
    repeat (match goal with
            | |- context [match ?x with _ => _ end] => destruct x; try done
            end).
Qed.

(** The characters of the lines are characters of the text that are no
    line boundaries. *)
Lemma splitlines_from_chars (P : N → Prop) s :
  ∀ cur,
    (∀ c, c ∈ cur → P c) →
    (∀ c, c ∈ s → is_linebreak c = false → P c) →
    ∀ line, line ∈ splitlines_from cur s → ∀ c, c ∈ line → P c.
Proof.
  induction s as [|c0 r IH]; intros cur Hcur Hs line Hline c Hc.
  - cbn in Hline. destruct cur as [|c1 cur]; [by apply not_elem_of_nil in Hline|].
    apply list_elem_of_singleton in Hline as ->.
    apply Hcur. by apply list_elem_of_In, in_rev, list_elem_of_In.
  - rewrite splitlines_from_cons in Hline.
    destruct (is_linebreak c0) eqn:Hb.
    + apply elem_of_cons in Hline as [->|Hline].
      { apply Hcur. by apply list_elem_of_In, in_rev, list_elem_of_In. }
      assert (Hr : line ∈ splitlines_from [] r).
      { destruct r as [|c' r']; [done|].
        destruct ((c0 =? 13) && (c' =? 10))%N eqn:E; [|done].
        apply andb_prop in E as [_ ->%N.eqb_eq].
        rewrite splitlines_from_cons. cbn [is_linebreak N.leb N.compare]. cbn.
        apply list_elem_of_further.
        destruct r' as [|c'' r'']; [done|]. exact Hline. }
      apply (IH []) with (line := line); [| |exact Hr|exact Hc].
      * intros c1 H1. by apply not_elem_of_nil in H1.
      * intros c1 H1. apply Hs. by apply list_elem_of_further.
    + apply (IH (c0 :: cur)) with (line := line); [| |exact Hline|exact Hc].
      * intros c1 [->|H1]%elem_of_cons; [|by apply Hcur].
        apply Hs; [apply list_elem_of_here | done].
      * intros c1 H1. apply Hs. by apply list_elem_of_further.
Qed.

Lemma drop_while_all (p : N → bool) s :
  (∀ c, c ∈ s → p c = true) → drop_while p s = [].
Proof.
  induction s as [|c r IH]; [done|]. intros H. cbn.
  rewrite (H c) by apply list_elem_of_here.
  apply IH. intros c' Hc'. apply H. by apply list_elem_of_further.
Qed.

Lemma strip_chars_sublist chars line c :
  c ∈ strip_chars chars line → c ∈ line.
Proof.
  rewrite strip_chars_drop_while. intros Hc.
  destruct (drop_while_suffix (λ c, bool_decide (c ∈ chars)) line) as [pre E].
  destruct (trim_prefix (λ c, bool_decide (c ∈ chars))
              (drop_while (λ c, bool_decide (c ∈ chars)) line)) as [w E'].
  rewrite E, E'. rewrite !elem_of_app. auto.
Qed.

(** X2. When the only whitespace of the text is the space (and the line
    boundaries), no item begins or ends with a character of
    ['-•* 1234567890.']: a number at the end of an action item is cut off
    with the numbering at its start. A text whose lines hold nothing but
    such characters gives no item at all. *)
Theorem extract_todos_cuts_bullets_and_digits text :
  (plain_spaces text →
   ∀ item, item ∈ extract_todos_from_ai text →
     (∀ c, head item = Some c → c ∉ bullet_chars)
     ∧ (∀ c, last item = Some c → c ∉ bullet_chars))
  ∧ ((∀ line c, line ∈ splitlines text → c ∈ line → c ∈ bullet_chars) →
     extract_todos_from_ai text = []).
Proof.
  unfold extract_todos_from_ai. rewrite extract_todos_loop_eq. cbn [app]. split.
  - intros Hplain item [Hne Hin]%list_elem_of_filter.
    apply list_elem_of_fmap in Hin as (line & -> & Hline).
    assert (Hchars : ∀ c, c ∈ line → is_space c = true → c = 32%N).
    { apply (splitlines_from_chars (λ c, is_space c = true → c = 32%N)
               text [] ) with (line := line); [| |exact Hline].
      - intros c Hc. by apply not_elem_of_nil in Hc.
      - intros c Hc Hb Hsp. destruct (Hplain c Hc Hsp) as [?|Hb']; [done|congruence]. }
    set (u := strip_chars bullet_chars line) in *.
    assert (Hhead : ∀ c, head u = Some c → c ∉ bullet_chars).
    { intros c Hc. unfold u in Hc. rewrite strip_chars_drop_while in Hc.
      apply trim_head in Hc. by apply bool_decide_eq_false in Hc. }
    assert (Hlast : ∀ c, last u = Some c → c ∉ bullet_chars).
    { intros c Hc. unfold u in Hc. rewrite strip_chars_drop_while in Hc.
      apply trim_last in Hc. by apply bool_decide_eq_false in Hc. }
    assert (Hnosp : ∀ c, c ∈ u → c ∉ bullet_chars → is_space c = false).
    { intros c Hc Hnb. destruct (is_space c) eqn:Hsp; [|done].
      exfalso. apply Hnb. rewrite (Hchars c); [|by eapply strip_chars_sublist|done].
      vm_compute. set_solver. }
    assert (Hu : strip u = u).
    { rewrite strip_drop_while. apply trim_id; intros c Hc.
      - apply Hnosp; [by eapply head_Some_elem_of | by apply Hhead].
      - apply Hnosp; [by eapply last_Some_elem_of | by apply Hlast]. }
    rewrite Hu. by split.
  - intros Hall.
    induction (splitlines text) as [|line lines IH]; [done|].
    cbn [fmap list_fmap]. rewrite filter_cons.
    assert (Hline : strip (strip_chars bullet_chars line) = []).
    { rewrite strip_chars_drop_while.
      rewrite (drop_while_all _ line); [done|].
      intros c Hc. apply bool_decide_eq_true.
      apply (Hall line c); [apply list_elem_of_here | done]. }
    rewrite Hline, decide_False by (by intros H; apply H).
    apply IH. intros l c Hl. apply Hall. by apply list_elem_of_further.
Qed.

Lemma plain_spaces_check text :
  forallb (λ c, implb (is_space c) ((c =? 32)%N || is_linebreak c)) text = true →
  plain_spaces text.
Proof.
  intros H c Hc Hsp. rewrite forallb_forall in H.
  specialize (H c (proj1 (list_elem_of_In _ _) Hc)). rewrite Hsp in H. cbn in H.
  apply orb_prop in H as [H|H]; [left; by apply N.eqb_eq | by right].
Qed.

Lemma extract_todos_cuts_bullets_and_digits_witness :
  plain_spaces numbered_item
  ∧ extract_todos_from_ai numbered_item = [lit "Replace valve"]
  ∧ ∀ item, item ∈ extract_todos_from_ai numbered_item →
      ∀ c, last item = Some c → c ∉ bullet_chars.
Proof.
  assert (H : plain_spaces numbered_item).
  { apply plain_spaces_check. vm_compute. reflexivity. }
  split; [exact H|]. split; [vm_compute; reflexivity|].
  intros item Hitem.
  exact (proj2 (proj1 (extract_todos_cuts_bullets_and_digits numbered_item)
                  H item Hitem)).
Defined.

(** ** Relative times *)

(** X3. [time_ago] depends on the elapsed microseconds only. From a full
    day on it counts days; below a day it counts hours when more than 3600
    whole seconds have passed and minutes when more than 60 have, so that
    exactly one hour shows as 60 minutes and exactly one minute as
    Just now. *)
Theorem time_ago_ranges now date :
  (86400000000 <= total_microseconds now - total_microseconds date →
   time_ago now date
   = str_of_int ((total_microseconds now - total_microseconds date) / 86400000000)
     ++ lit " days ago")
  ∧ (3601000000 <= total_microseconds now - total_microseconds date < 86400000000 →
     time_ago now date
     = str_of_int ((total_microseconds now - total_microseconds date) / 3600000000)
       ++ lit " hours ago")
  ∧ (61000000 <= total_microseconds now - total_microseconds date < 3601000000 →
     time_ago now date
     = str_of_int ((total_microseconds now - total_microseconds date) / 60000000)
       ++ lit " minutes ago")
  ∧ (0 <= total_microseconds now - total_microseconds date < 61000000 →
     time_ago now date = lit "Just now")
  ∧ (total_microseconds now - total_microseconds date = 3600000000 →
     time_ago now date = lit "60 minutes ago")
  ∧ (total_microseconds now - total_microseconds date = 60000000 →
     time_ago now date = lit "Just now").
Proof.
  unfold time_ago, datetime_sub. cbn [days seconds].
  generalize (total_microseconds now - total_microseconds date). intros us.
  repeat split; try (intros ->; reflexivity).
  - intros H.
    assert (H1 : 0 < us / 86400000000) by (apply Z.div_str_pos; lia).
    by rewrite (proj2 (Z.ltb_lt _ _) H1).
  - intros [H1 H2].
    rewrite Z.div_small, Z.mod_small by lia. cbn [Z.ltb Z.compare].
    assert (H3 : 3600 < us / 1000000)
      by (apply (Z.lt_le_trans _ 3601); [lia | apply Z.div_le_lower_bound; lia]).
    rewrite (proj2 (Z.ltb_lt _ _) H3).
    by rewrite Z.div_div by lia.
  - intros [H1 H2].
    rewrite Z.div_small, Z.mod_small by lia. cbn [Z.ltb Z.compare].
    assert (H3 : us / 1000000 <= 3600)
      by (apply Z.lt_succ_r, Z.div_lt_upper_bound; lia).
    assert (H4 : 60 < us / 1000000)
      by (apply (Z.lt_le_trans _ 61); [lia | apply Z.div_le_lower_bound; lia]).
    rewrite (proj2 (Z.ltb_ge _ _) H3), (proj2 (Z.ltb_lt _ _) H4).
    by rewrite Z.div_div by lia.
  - intros [H1 H2].
    rewrite Z.div_small, Z.mod_small by lia. cbn [Z.ltb Z.compare].
    assert (H3 : us / 1000000 <= 60)
      by (apply Z.lt_succ_r, Z.div_lt_upper_bound; lia).
    rewrite (proj2 (Z.ltb_ge 3600 _)), (proj2 (Z.ltb_ge _ _) H3) by lia. done.
Qed.

Lemma time_ago_ranges_witness :
  61000000 <= total_microseconds noon - total_microseconds eleven < 3601000000
  ∧ time_ago noon eleven = lit "60 minutes ago".
Proof.
  assert (H : 61000000 <= total_microseconds noon - total_microseconds eleven
              < 3601000000).
  { assert (E : total_microseconds noon - total_microseconds eleven = 3600000000)
      by (vm_compute; reflexivity).
    rewrite E. lia. }
  split; [exact H|].
  rewrite (proj1 (proj2 (proj2 (time_ago_ranges noon eleven))) H).
  vm_compute. reflexivity.
Defined.

(** X4. A date in the future is never counted in days: its label is that
    of the elapsed time taken modulo one day. A date up to 82799 seconds
    ahead is shown as between 1 and 23 hours ago. *)
Theorem time_ago_future now date now' date' :
  total_microseconds now - total_microseconds date < 0 →
  (total_microseconds now' - total_microseconds date'
   = (total_microseconds now - total_microseconds date) mod 86400000000 →
   time_ago now date = time_ago now' date')
  ∧ (-82799000000 <= total_microseconds now - total_microseconds date →
     ∃ h, 1 <= h <= 23
          ∧ h = (total_microseconds now - total_microseconds date + 86400000000)
                / 3600000000
          ∧ time_ago now date = str_of_int h ++ lit " hours ago").
Proof.
  unfold time_ago, datetime_sub. cbn [days seconds].
  generalize (total_microseconds now - total_microseconds date).
  generalize (total_microseconds now' - total_microseconds date').
  intros us' us Hneg.
  assert (Hd : us / 86400000000 < 0) by (apply Z.div_lt_upper_bound; lia).
  rewrite (proj2 (Z.ltb_ge 0 (us / 86400000000))) by lia.
  split.
  - intros ->.
    pose proof (Z.mod_pos_bound us 86400000000 ltac:(lia)).
    rewrite (Z.div_small (us mod 86400000000) 86400000000) by lia.
    by rewrite Zmod_mod.
  - intros Hlo.
    assert (Hm : us mod 86400000000 = us + 86400000000).
    { symmetry. apply (Z.mod_unique_pos us 86400000000 (-1)); lia. }
    rewrite Hm.
    assert (H3 : 3600 < (us + 86400000000) / 1000000)
      by (apply (Z.lt_le_trans _ 3601); [lia | apply Z.div_le_lower_bound; lia]).
    rewrite (proj2 (Z.ltb_lt _ _) H3), Z.div_div by lia.
    eexists. split; [|split; [reflexivity | reflexivity]].
    split; [apply Z.div_le_lower_bound; lia | ].
    apply Z.lt_succ_r, Z.div_lt_upper_bound; lia.
Qed.

Lemma time_ago_future_witness :
  total_microseconds noon - total_microseconds noon_plus_1s < 0
  ∧ -82799000000 <= total_microseconds noon - total_microseconds noon_plus_1s
  ∧ time_ago noon noon_plus_1s = lit "23 hours ago".
Proof.
  assert (H1 : total_microseconds noon - total_microseconds noon_plus_1s < 0)
    by (vm_compute; reflexivity).
  assert (H2 : -82799000000
               <= total_microseconds noon - total_microseconds noon_plus_1s)
    by (intros H; vm_compute in H; discriminate H).
  split; [exact H1|]. split; [exact H2|].
  destruct (proj2 (time_ago_future noon noon_plus_1s noon noon H1) H2)
    as (h & _ & -> & ->).
  vm_compute. reflexivity.
Defined.

(** ** Alerts *)

Lemma risk_to_alert_entries k d :
  risk_to_alert !! k = Some d →
  (k = lit "High" ∧ d = mk_alert_def (lit "alert-critical") 60)
  ∨ (k = lit "Medium" ∧ d = mk_alert_def (lit "alert-asset") 900)
  ∨ (k = lit "Low" ∧ d = mk_alert_def (lit "alert-rounding") 14400)
  ∨ (k = lit "Training" ∧ d = mk_alert_def (lit "alert-training") 86400)
  ∨ (k = lit "Compliance" ∧ d = mk_alert_def (lit "alert-compliance") 3600).
Proof.
  unfold risk_to_alert. rewrite !lookup_insert.
  repeat case_decide; try (intros [= <-]; subst; tauto);
    by rewrite lookup_empty.
Qed.

Lemma risk_to_alert_low :
  risk_to_alert !!! lit "Low" = mk_alert_def (lit "alert-rounding") 14400.
Proof. vm_compute. reflexivity. Qed.

Lemma risk_to_alert_None k :
  k ∉ [lit "High"; lit "Medium"; lit "Low"; lit "Training"; lit "Compliance"] →
  risk_to_alert !! k = None.
Proof.
  intros Hk. destruct (risk_to_alert !! k) as [d|] eqn:E; [|done].
  exfalso. apply Hk.
  destruct (risk_to_alert_entries k d E) as [[-> _]|[[-> _]|[[-> _]|[[-> _]|[-> _]]]]];
    repeat first [apply list_elem_of_here | apply list_elem_of_further].
Qed.

(** X5. [add_alert_dynamic] puts one new alert, not dismissed, in front of
    the alerts and changes nothing else. The label is compared as it
    stands: only the five keys High, Medium, Low, Training and Compliance
    have their own class and urgency, and every other label, such as the
    same words in another case or with a space, takes the class and
    urgency of Low. *)
Theorem add_alert_dynamic_entry event risk_level auto_action id now st :
  let st' := add_alert_dynamic event risk_level auto_action id now st in
  (∃ a, alerts st' = a :: alerts st
        ∧ alert_type a = risk_level ∧ alert_event a = event
        ∧ alert_dismissed a = false
        ∧ alert_auto a = default [] auto_action
        ∧ (risk_level ∉ [lit "High"; lit "Medium"; lit "Low"; lit "Training";
                         lit "Compliance"] →
           alert_class a = lit "alert-rounding" ∧ alert_urgency a = 14400)
        ∧ (risk_level = lit "High" →
           alert_class a = lit "alert-critical" ∧ alert_urgency a = 60)
        ∧ (risk_level = lit "Medium" →
           alert_class a = lit "alert-asset" ∧ alert_urgency a = 900)
        ∧ (risk_level = lit "Low" →
           alert_class a = lit "alert-rounding" ∧ alert_urgency a = 14400)
        ∧ (risk_level = lit "Training" →
           alert_class a = lit "alert-training" ∧ alert_urgency a = 86400)
        ∧ (risk_level = lit "Compliance" →
           alert_class a = lit "alert-compliance" ∧ alert_urgency a = 3600))
  ∧ heap st' = heap st ∧ events st' = events st
  ∧ orchestrator_log st' = orchestrator_log st
  ∧ todos st' = todos st ∧ files st' = files st.
Proof.
  cbn zeta. unfold add_alert_dynamic.
  cbn [heap events orchestrator_log alerts todos files].
  split; [|by repeat split].
  eexists. split; [reflexivity|].
  cbn [alert_type alert_event alert_dismissed alert_auto alert_class alert_urgency].
  do 4 (split; [reflexivity|]).
  split; [intros Hk; by rewrite (risk_to_alert_None _ Hk), risk_to_alert_low|].
  do 4 (split; [intros ->; split; vm_compute; reflexivity|]).
  intros ->; split; vm_compute; reflexivity.
Qed.

Lemma add_alert_dynamic_entry_witness :
  (lit "high" ∉ [lit "High"; lit "Medium"; lit "Low"; lit "Training";
                 lit "Compliance"])
  ∧ (alert_urgency <$> head (alerts (add_alert_dynamic 1%positive (lit "high")
                                       None 1741953700 later leak_session)))
    = Some 14400.
Proof.
  assert (H : lit "high" ∉ [lit "High"; lit "Medium"; lit "Low"; lit "Training";
                            lit "Compliance"]).
  { intros H. vm_compute in H. repeat (apply elem_of_cons in H as [H|H]; [discriminate H|]).
    by apply not_elem_of_nil in H. }
  split; [exact H|].
  destruct (add_alert_dynamic_entry 1%positive (lit "high") None 1741953700
              later leak_session) as [(a & -> & _ & _ & _ & _ & Hlow & _) _].
  cbn. f_equal. exact (proj2 (Hlow H)).
Defined.

(** X6. Whatever the label, the urgency the Alert Matrix shows for an alert
    made by [add_alert_dynamic] is one of 1m, 15m, 4h, 1d and 1h, and it is
    4h for every label that is none of the five keys. *)
Theorem new_alert_urgency_label event risk_level auto_action id now st :
  ∃ a, head (alerts (add_alert_dynamic event risk_level auto_action id now st))
       = Some a
       ∧ format_urgency a ∈ [lit "1m"; lit "15m"; lit "4h"; lit "1d"; lit "1h"]
       ∧ (risk_level ∉ [lit "High"; lit "Medium"; lit "Low"; lit "Training";
                        lit "Compliance"] →
          format_urgency a = lit "4h").
Proof.
  unfold add_alert_dynamic. cbn [alerts head]. eexists. split; [reflexivity|].
  unfold format_urgency. cbn [alert_urgency].
  destruct (risk_to_alert !! risk_level) as [d|] eqn:E.
  - split.
    + destruct (risk_to_alert_entries _ _ E)
        as [[_ ->]|[[_ ->]|[[_ ->]|[[_ ->]|[_ ->]]]]];
        vm_compute; repeat first [apply list_elem_of_here | apply list_elem_of_further].
    + intros Hk. by rewrite (risk_to_alert_None _ Hk) in E.
  - cbn [default]. rewrite risk_to_alert_low. split; [|done].
    vm_compute. repeat first [apply list_elem_of_here | apply list_elem_of_further].
Qed.

(** ** Dismissing alerts *)

Lemma active_alerts_eq st :
  active_alerts st = filter (λ a, alert_dismissed a = false) (alerts st).
Proof. done. Qed.

(** X7. Dismissing the alert shown at position [i] marks that alert and no
    other: the list of alerts keeps its length and every other alert, the
    active view loses exactly this alert and keeps the order of the rest,
    and dismissing it again changes nothing. *)
Theorem dismiss_marks_one i a st :
  alerts st !! i = Some a →
  alert_dismissed a = false →
  let st' := dismiss i st in
  length (alerts st') = length (alerts st)
  ∧ (∀ j, j ≠ i → alerts st' !! j = alerts st !! j)
  ∧ (∃ a', alerts st' !! i = Some a' ∧ alert_dismissed a' = true
           ∧ alert_id a' = alert_id a ∧ alert_type a' = alert_type a
           ∧ alert_event a' = alert_event a ∧ alert_urgency a' = alert_urgency a)
  ∧ active_alerts st
    = filter (λ a, alert_dismissed a = false) (take i (alerts st))
      ++ a :: filter (λ a, alert_dismissed a = false) (drop (S i) (alerts st))
  ∧ active_alerts st'
    = filter (λ a, alert_dismissed a = false) (take i (alerts st))
      ++ filter (λ a, alert_dismissed a = false) (drop (S i) (alerts st))
  ∧ dismiss i st' = st'
  ∧ heap st' = heap st ∧ events st' = events st ∧ todos st' = todos st
  ∧ files st' = files st.
Proof.
  intros Hi Ha. cbn zeta.
  assert (E : dismiss i st
              = mk_state (heap st) (events st) (orchestrator_log st)
                  (<[i := mk_alert (alert_id a) (alert_type a) (alert_class a)
                           (alert_auto a) (alert_event a) (alert_created a)
                           (alert_urgency a) true]> (alerts st))
                  (todos st) (files st))
    by (unfold dismiss; by rewrite Hi, Ha).
  rewrite E. cbn [heap events orchestrator_log alerts todos files].
  assert (Hlt : (i < length (alerts st))%nat) by (by eapply lookup_lt_Some).
  split; [apply length_insert|].
  split; [intros j Hj; by apply list_lookup_insert_ne|].
  split.
  { eexists. split; [by apply list_lookup_insert_eq|]. cbn. by repeat split. }
  split.
  { unfold active_alerts. rewrite <-(take_drop_middle _ _ _ Hi) at 1.
    rewrite filter_app, filter_cons, decide_True by done. done. }
  split.
  { unfold active_alerts. cbn [alerts].
    rewrite insert_take_drop by done.
    rewrite filter_app, filter_cons, decide_False by done. done. }
  split; [|by repeat split].
  unfold dismiss. cbn [alerts].
  rewrite list_lookup_insert_eq by done. done.
Qed.

Lemma dismiss_marks_one_witness :
  alerts alert_session !! 0%nat = Some medium_alert
  ∧ alert_dismissed medium_alert = false
  ∧ active_alerts (dismiss 0 alert_session) = []
  ∧ length (alerts (dismiss 0 alert_session)) = 2%nat.
Proof.
  assert (H1 : alerts alert_session !! 0%nat = Some medium_alert) by reflexivity.
  assert (H2 : alert_dismissed medium_alert = false) by reflexivity.
  split; [exact H1|]. split; [exact H2|].
  destruct (dismiss_marks_one 0 medium_alert alert_session H1 H2)
    as (Hlen & _ & _ & _ & Hact & _).
  split; [by rewrite Hact | by rewrite Hlen].
Defined.

(** ** The alerts of the todo loop *)

Lemma matching_event_Some (x : pystr) (h : gmap loc (gmap (list N) pyval))
    (evs : list loc) (e : loc) :
  matching_event x h evs = Ok (Some e) →
  e ∈ evs ∧ ∃ details, deref h e !! lit "details" = Some details
                       ∧ py_in x details = Ok true.
Proof.
  induction evs as [|e0 evs IH]; [done|]. cbn [matching_event].
  unfold getitem. destruct (deref h e0 !! lit "details") as [d|] eqn:Ed; [|done].
  cbn [mbind result_bind]. destruct (py_in x d) as [[]|] eqn:Ep; cbn; [| |done].
  - intros [= <-]. split; [apply list_elem_of_here | eauto].
  - intros H. destruct (IH H) as [? ?]. split; [by apply list_elem_of_further | done].
Qed.

Lemma update_todos_inv (env : nat → Z * datetime) (text : pystr)
    (st st' : session_state) :
  update_todos env (Some text) st = Ok st' →
  (text = [] ∧ st' = st)
  ∨ ∃ new st1,
      parse_lines env 0 (splitlines text) [] st = Ok (new, st1)
      ∧ ((new = [] ∧ st' = st1)
         ∨ (new ≠ [] ∧ json_ok (PList new) = true
            ∧ st' = mk_state (heap st1) (events st1) (orchestrator_log st1)
                      (alerts st1) (PList new)
                      (<[TODOS_FILE := Doc (PList new)]> (files st1)))).
Proof.
  unfold update_todos. cbn [truthy].
  destruct (bool_decide_reflect (text = [])) as [->|Ht]; cbn [negb].
  { intros [= <-]. by left. }
  destruct (parse_lines env 0 (splitlines text) [] st) as [[new st1]|] eqn:Ep; [|done].
  cbn [mbind result_bind]. right. exists new, st1. split; [done|].
  destruct (bool_decide_reflect (new = [])) as [->|Hn]; cbn [negb] in *.
  { injection H as <-. by left. }
  right. unfold save_todos, json_dump_to in H.
  destruct (json_ok (PList new)) eqn:Ej; cbn in H; [|done].
  injection H as <-. done.
Qed.

Section TodoLoopAlerts.

Variable env : nat → Z * datetime.

Lemma parse_lines_alerts lines :
  ∀ i acc st r st',
    parse_lines env i lines acc st = Ok (r, st') →
    ∃ new,
      alerts st' = new ++ alerts st
      ∧ (length new <= length (filter (λ line, qualifies line = true) lines))%nat
      ∧ Forall (λ a, ∃ line, line ∈ lines ∧ qualifies line = true
                             ∧ alert_from_line st line a) new
      ∧ heap st' = heap st ∧ events st' = events st
      ∧ orchestrator_log st' = orchestrator_log st.
Proof.
  induction lines as [|line lines IH]; intros i acc st r st' H.
  - injection H as <- <-. exists []. by repeat split.
  - cbn [parse_lines] in H. rewrite filter_cons.
    destruct (qualifies line) eqn:Hq.
    + rewrite decide_True by done.
      destruct (qualifies_three_parts line Hq) as (p0 & p1 & p2 & rest & Hsplit).
      rewrite (todo_fields_ok _ _ _ _ _ Hsplit) in H. cbn [mbind result_bind] in H.
      destruct (matching_event (strip (replace (lit "Event:") [] p0))
                  (heap st) (events st)) as [m|] eqn:Em; [|done].
      cbn [mbind result_bind] in H.
      apply IH in H as (new & Hal & Hlen & Hnew & Hh & He & Ho).
      assert (Hmono : ∀ a, (∃ l, l ∈ lines ∧ qualifies l = true
                                 ∧ alert_from_line st l a) →
                           ∃ l, l ∈ line :: lines ∧ qualifies l = true
                                ∧ alert_from_line st l a).
      { intros a (l & ? & ? & ?). exists l. split; [by apply list_elem_of_further|done]. }
      destruct m as [e|]; [destruct (truthy (PDict (deref (heap st) e)))|].
      * destruct (matching_event_Some _ _ _ _ Em) as (Hin & d & Hd & Hp).
        unfold add_alert_dynamic in Hal, Hh, He, Ho.
        cbn [alerts heap events orchestrator_log] in Hal, Hh, He, Ho.
        eexists (new ++ [_]). split; [rewrite <-(assoc_L (++)); exact Hal|].
        split; [rewrite length_app; cbn; lia|].
        split; [|done].
        apply Forall_app. split.
        -- eapply Forall_impl; [exact Hnew|]. intros a (l & Hl & Hql & Hal').
           exists l. split; [by apply list_elem_of_further|]. split; [done|].
           destruct Hal' as (q0 & q1 & q2 & qr & dd & ? & ? & ? & ? & ? & ? & ?).
           by exists q0, q1, q2, qr, dd.
        -- apply Forall_singleton. exists line.
           split; [apply list_elem_of_here|]. split; [done|].
           by exists p0, p1, p2, rest, d.
      * exists new. split; [done|]. split; [cbn; lia|]. split; [|done].
        eapply Forall_impl; [exact Hnew|]. exact Hmono.
      * exists new. split; [done|]. split; [cbn; lia|]. split; [|done].
        eapply Forall_impl; [exact Hnew|]. exact Hmono.
    + rewrite decide_False by done.
      apply IH in H as (new & Hal & Hlen & Hnew & Hrest).
      exists new. split; [done|]. split; [done|]. split; [|done].
      eapply Forall_impl; [exact Hnew|]. intros a (l & ? & ? & ?).
      exists l. split; [by apply list_elem_of_further|done].
Qed.

(** X8. A refresh of the todo list never removes, reorders or dismisses
    an alert and never touches the events or the decision log: it puts its
    new alerts in front of the earlier ones, at most one for each
    qualifying line of the answer. Each new alert belongs to an event of
    the store whose details hold the event text of such a line, carries
    the line's risk as type and the line's action as automatic action, and
    is not dismissed. *)
Theorem refresh_adds_alerts text st st' :
  update_todos env (Some text) st = Ok st' →
  ∃ new,
    alerts st' = new ++ alerts st
    ∧ (length new
       <= length (filter (λ line, qualifies line = true) (splitlines text)))%nat
    ∧ Forall (λ a, ∃ line, line ∈ splitlines text ∧ qualifies line = true
                           ∧ alert_from_line st line a) new
    ∧ heap st' = heap st ∧ events st' = events st
    ∧ orchestrator_log st' = orchestrator_log st.
Proof.
  intros H. apply update_todos_inv in H as [[-> ->]|(new & st1 & Hp & Hst)].
  { exists []. by repeat split. }
  apply parse_lines_alerts in Hp as (al & Hal & Hlen & Hnew & Hh & He & Ho).
  exists al. by destruct Hst as [[_ ->]|(_ & _ & ->)].
Qed.

End TodoLoopAlerts.

Lemma refresh_adds_alerts_witness :
  ∃ st', update_todos clock_readings (Some example_answer) leak_session = Ok st'
         ∧ (length (alerts st') <= 2)%nat
         ∧ events st' = events leak_session.
Proof.
  destruct (update_todos clock_readings (Some example_answer) leak_session)
    as [st'|] eqn:E; [|by vm_compute in E].
  exists st'. split; [reflexivity|].
  destruct (refresh_adds_alerts clock_readings example_answer leak_session st' E)
    as (new & Hal & Hlen & _ & _ & He & _).
  split; [|exact He].
  rewrite Hal, length_app. cbn. etrans; [|exact Hlen]. lia.
Defined.

(** Two runs of the loop on sessions with the same events give the same
    todos and the same number of new alerts, whatever the earlier alerts,
    todos and files and whatever the readings of the environment. *)
Lemma parse_lines_rerun (env env' : nat → Z * datetime) lines :
  ∀ i j acc st st2 r st',
    heap st2 = heap st → events st2 = events st →
    parse_lines env i lines acc st = Ok (r, st') →
    ∃ st2',
      parse_lines env' j lines acc st2 = Ok (r, st2')
      ∧ (length (alerts st2') + length (alerts st)
         = length (alerts st') + length (alerts st2))%nat
      ∧ heap st2' = heap st2 ∧ events st2' = events st2
      ∧ orchestrator_log st2' = orchestrator_log st2
      ∧ todos st2' = todos st2 ∧ files st2' = files st2.
Proof.
  induction lines as [|line lines IH]; intros i j acc st st2 r st' Hh He H.
  - injection H as <- <-. exists st2. split; [done|]. split; [lia|]. by repeat split.
  - cbn [parse_lines] in *.
    destruct (qualifies line); [|exact (IH (S i) (S j) _ _ _ _ _ Hh He H)].
    destruct (todo_fields line) as [[[ep rp] ap]|]; [|done].
    cbn [mbind result_bind] in *. rewrite <-Hh, <-He in H.
    destruct (matching_event ep (heap st2) (events st2)) as [m|]; [|done].
    cbn [mbind result_bind] in *.
    destruct m as [e|]; [destruct (truthy (PDict (deref (heap st2) e)))|].
    + destruct (IH (S i) (S j) (acc ++ [new_todo ep rp ap])
                  (add_alert_dynamic e rp (Some ap) (env i).1 (env i).2 st)
                  (add_alert_dynamic e rp (Some ap) (env' j).1 (env' j).2 st2)
                  r st' Hh He H) as (st2' & Hp & Hlen & Hrest).
      exists st2'. split; [exact Hp|]. split; [|exact Hrest].
      unfold add_alert_dynamic in Hlen. cbn [alerts length] in Hlen. lia.
    + exact (IH (S i) (S j) _ _ _ _ _ Hh He H).
    + exact (IH (S i) (S j) _ _ _ _ _ Hh He H).
Qed.

(** X9. The refresh does not recognise what it has done before: a second
    refresh with the same answer succeeds like the first and puts as many
    alerts in front of the alerts as the first one did, so that the alerts
    of the matching events double. *)
Theorem refresh_repeats_alerts (env env' : nat → Z * datetime) text st st1 :
  update_todos env (Some text) st = Ok st1 →
  ∃ st2,
    update_todos env' (Some text) st1 = Ok st2
    ∧ (length (alerts st2) + length (alerts st) = 2 * length (alerts st1))%nat
    ∧ todos st2 = todos st1 ∧ files st2 = files st1.
Proof.
  intros H. pose proof H as H'.
  apply update_todos_inv in H' as [[-> ->]|(new & s1 & Hp & Hst)].
  { exists st. split; [done|]. split; [lia | done]. }
  assert (Hs1 : heap st1 = heap s1 ∧ events st1 = events s1
                ∧ alerts st1 = alerts s1)
    by (by destruct Hst as [[_ ->]|(_ & _ & ->)]).
  destruct Hs1 as (Hh1 & He1 & Ha1).
  pose proof (parse_lines_alerts env _ _ _ _ _ _ Hp) as (al & _ & _ & _ & Hh & He & _).
  destruct (parse_lines_rerun env env' (splitlines text) 0%nat 0%nat [] st st1
              new s1) as (s2 & Hp2 & Hlen & Hh2 & He2 & Ho2 & Ht2 & Hf2);
    [congruence | congruence | exact Hp |].
  unfold update_todos in *. cbn [truthy] in *.
  destruct (bool_decide (text = [])); cbn [negb] in *.
  { injection H as <-. exists st. split; [done|]. split; [lia|done]. }
  rewrite Hp2. rewrite Hp in H. cbn [mbind result_bind] in *.
  destruct Hst as [[-> ->]|(Hne & Hj & ->)].
  - cbn. exists s2. split; [done|]. split; [lia | done].
  - rewrite bool_decide_eq_false_2 by done. cbn [negb].
    unfold save_todos, json_dump_to. rewrite Hj. cbn.
    eexists. split; [reflexivity|]. cbn [alerts todos files].
    split; [cbn [alerts] in Hlen; lia|]. split; [done|].
    rewrite Hf2. cbn [files]. by rewrite insert_insert_eq.
Qed.

Lemma refresh_repeats_alerts_witness :
  ∃ st1 st2,
    update_todos clock_readings (Some example_answer) leak_session = Ok st1
    ∧ update_todos clock_readings (Some example_answer) st1 = Ok st2
    ∧ (length (alerts st2) + length (alerts leak_session)
       = 2 * length (alerts st1))%nat.
Proof.
  destruct (update_todos clock_readings (Some example_answer) leak_session)
    as [st1|] eqn:E; [|by vm_compute in E].
  destruct (refresh_repeats_alerts clock_readings clock_readings example_answer
              leak_session st1 E) as (st2 & H2 & Hlen & _).
  exists st1, st2. split; [reflexivity|]. split; [exact H2 | exact Hlen].
Defined.

(** ** What reaches the events file *)

(** A submission with storable events leaves the whole list on file. *)
Lemma submit_event_saved event_type event_details t now st :
  event_details ≠ [] →
  Forall (allocated st) (events st) →
  valid_datetime now = true →
  Forall storable (event_values st) →
  let st' := (submit_event true event_type event_details t now st).1 in
  events st' = fresh (dom (heap st)) :: events st
  ∧ heap st' = <[fresh (dom (heap st))
                 := new_event t event_type event_details now]> (heap st)
  ∧ event_values st' = new_event t event_type event_details now :: event_values st
  ∧ load_events (files st') = PList (PDict <$> event_values st')
  ∧ orchestrator_log st' = orchestrator_log st ∧ alerts st' = alerts st.
Proof.
  intros Hd Hrefs Hnow Hst. cbn zeta.
  rewrite submit_event_eq by done. cbn [fst].
  set (l := fresh (dom (heap st))).
  set (event := new_event t event_type event_details now).
  assert (Hl : heap st !! l = None) by (apply not_elem_of_dom, is_fresh).
  assert (Hv : deref (<[l := event]> (heap st)) <$> l :: events st
               = event :: event_values st).
  { cbn [fmap list_fmap]. rewrite deref_insert_eq. f_equal.
    unfold event_values. apply list_fmap_ext. intros i l' Hi.
    apply deref_insert_ne. intros <-.
    rewrite Forall_lookup in Hrefs. destruct (Hrefs i l Hi) as [? Hs]. congruence. }
  assert (Hvals : event_values
            (mk_state (<[l := event]> (heap st)) (l :: events st)
               (orchestrator_log st) (alerts st) (todos st)
               (save_events (deref (<[l := event]> (heap st)) <$> l :: events st)
                            (files st)).1)
          = event :: event_values st) by exact Hv.
  rewrite Hvals. cbn [heap events files orchestrator_log alerts]. rewrite Hv.
  assert (Hall : Forall storable (event :: event_values st)).
  { apply Forall_cons. split; [by apply new_event_storable | done]. }
  destruct (save_then_load (event :: event_values st) (files st) Hall) as [_ Hload].
  split; [reflexivity|]. split; [reflexivity|]. split; [reflexivity|].
  split; [exact Hload|]. split; reflexivity.
Qed.

Lemma process_orchestrator_decision_values event answers rd st :
  event_values (process_orchestrator_decision event answers rd st).2
  = (λ l, if decide (l = event)
          then match heap st !! event with
               | Some _ => <[lit "status" := PStr (classify answers).1.1]>
                             (deref (heap st) l)
               | None => deref (heap st) l
               end
          else deref (heap st) l) <$> events st.
Proof.
  rewrite process_orchestrator_decision_state. unfold event_values.
  cbn [heap events]. apply list_fmap_ext. intros i l _.
  unfold deref. rewrite lookup_alter.
  destruct (decide (event = l)) as [->|Hne].
  - rewrite decide_True by done. by destruct (heap st !! l).
  - by rewrite decide_False by done.
Qed.

(** X10. The orchestrator writes no file. After an event was submitted
    and then decided, the session shows it with the outcome as status,
    while the events file still holds it as Pending: loading the file, as
    the next start of the application does, gives the event list as it was
    before the decision. *)
Theorem orchestrator_status_not_saved event_type event_details t now
    answers rd st :
  event_details ≠ [] →
  Forall (allocated st) (events st) →
  valid_datetime now = true →
  Forall storable (event_values st) →
  let st1 := (submit_event true event_type event_details t now st).1 in
  let event := fresh (dom (heap st)) in
  let st2 := (process_orchestrator_decision event answers rd st1).2 in
  events st1 !! 0%nat = Some event
  ∧ deref (heap st2) event
    = <[lit "status" := PStr (classify answers).1.1]>
        (new_event t event_type event_details now)
  ∧ files st2 = files st1
  ∧ load_events (files st2)
    = PList (PDict <$> new_event t event_type event_details now :: event_values st)
  ∧ new_event t event_type event_details now !! lit "status"
    = Some (PStr (lit "Pending")).
Proof.
  intros Hd Hrefs Hnow Hst. cbn zeta.
  destruct (submit_event_saved event_type event_details t now st Hd Hrefs Hnow Hst)
    as (He & Hh & Hv & Hload & _).
  rewrite process_orchestrator_decision_state. cbn [heap files].
  split; [by rewrite He|]. split.
  { apply deref_Some. rewrite lookup_alter_eq, Hh, lookup_insert_eq. done. }
  split; [done|]. split; [by rewrite Hload, Hv|].
  unfold new_event. rewrite !lookup_insert_ne by done. apply lookup_insert_eq.
Qed.

Lemma orchestrator_status_not_saved_witness :
  lit "Weekly check" ≠ []
  ∧ Forall (allocated leak_session) (events leak_session)
  ∧ valid_datetime later = true
  ∧ Forall storable (event_values leak_session)
  ∧ load_events
      (files (process_orchestrator_decision 2%positive (true, false, false)
                leak_readings
                (submit_event true (lit "Scheduled Cycle") (lit "Weekly check")
                              1741953660 later leak_session).1).2)
    = PList [PDict (new_event 1741953660 (lit "Scheduled Cycle")
                              (lit "Weekly check") later);
             PDict leak_event].
Proof.
  assert (H1 : lit "Weekly check" ≠ []) by done.
  assert (H2 : Forall (allocated leak_session) (events leak_session)).
  { apply Forall_cons. split; [|apply Forall_nil_2].
    exists leak_event. apply lookup_singleton_eq. }
  assert (H3 : valid_datetime later = true) by reflexivity.
  assert (H4 : Forall storable (event_values leak_session)).
  { apply Forall_cons. split; [|apply Forall_nil_2]. by apply new_event_storable. }
  split; [exact H1|]. split; [exact H2|]. split; [exact H3|]. split; [exact H4|].
  destruct (orchestrator_status_not_saved (lit "Scheduled Cycle")
              (lit "Weekly check") 1741953660 later (true, false, false)
              leak_readings leak_session H1 H2 H3 H4) as (_ & _ & _ & Hload & _).
  exact Hload.
Defined.

(** X11. The next submission saves it: [save_events] writes every event of
    the session as it is then, so after a decision on a stored event and a
    later submission the events file holds that event with the outcome as
    status, one place further down the list. *)
Theorem next_submission_saves_status event answers rd event_type event_details
    t now st i d :
  event_details ≠ [] →
  Forall (allocated st) (events st) →
  valid_datetime now = true →
  Forall storable (event_values st) →
  events st !! i = Some event →
  heap st !! event = Some d →
  let st1 := (process_orchestrator_decision event answers rd st).2 in
  let st2 := (submit_event true event_type event_details t now st1).1 in
  ∃ saved,
    load_events (files st2) = PList saved
    ∧ saved = PDict <$> event_values st2
    ∧ saved !! 0%nat = Some (PDict (new_event t event_type event_details now))
    ∧ saved !! S i
      = Some (PDict (<[lit "status" := PStr (classify answers).1.1]> d)).
Proof.
  intros Hd Hrefs Hnow Hst Hi Hev. cbn zeta.
  set (st1 := (process_orchestrator_decision event answers rd st).2).
  assert (Hrefs1 : Forall (allocated st1) (events st1)).
  { unfold st1. rewrite process_orchestrator_decision_state. cbn [events].
    eapply Forall_impl; [exact Hrefs|]. intros l [x Hx]. unfold allocated.
    cbn [heap]. rewrite lookup_alter. case_decide; [subst; by rewrite Hx|eauto]. }
  assert (Hst1 : Forall storable (event_values st1))
    by (by apply process_orchestrator_decision_storable).
  destruct (submit_event_saved event_type event_details t now st1 Hd Hrefs1 Hnow Hst1)
    as (_ & _ & Hv & Hload & _).
  eexists. split; [exact Hload|]. split; [done|]. rewrite Hv.
  split; [done|].
  change ((PDict <$> event_values st1) !! i
          = Some (PDict (<[lit "status" := PStr (classify answers).1.1]> d))).
  unfold st1. rewrite process_orchestrator_decision_values.
  rewrite !list_lookup_fmap, Hi. cbn [fmap option_fmap option_map].
  rewrite decide_True by done. rewrite Hev. by rewrite (deref_Some _ _ _ Hev).
Qed.

Lemma next_submission_saves_status_witness :
  lit "Weekly check" ≠ []
  ∧ Forall (allocated leak_session) (events leak_session)
  ∧ valid_datetime later = true
  ∧ Forall storable (event_values leak_session)
  ∧ events leak_session !! 0%nat = Some 1%positive
  ∧ heap leak_session !! 1%positive = Some leak_event
  ∧ ∃ saved,
      load_events
        (files (submit_event true (lit "Scheduled Cycle") (lit "Weekly check")
                  1741953660 later
                  (process_orchestrator_decision 1%positive (true, false, false)
                     leak_readings leak_session).2).1) = PList saved
      ∧ saved !! 1%nat
        = Some (PDict (<[lit "status" := PStr (lit "Escalate")]> leak_event)).
Proof.
  assert (H1 : lit "Weekly check" ≠ []) by done.
  assert (H2 : Forall (allocated leak_session) (events leak_session)).
  { apply Forall_cons. split; [|apply Forall_nil_2].
    exists leak_event. apply lookup_singleton_eq. }
  assert (H3 : valid_datetime later = true) by reflexivity.
  assert (H4 : Forall storable (event_values leak_session)).
  { apply Forall_cons. split; [|apply Forall_nil_2]. by apply new_event_storable. }
  assert (H5 : events leak_session !! 0%nat = Some 1%positive) by reflexivity.
  assert (H6 : heap leak_session !! 1%positive = Some leak_event)
    by apply lookup_singleton_eq.
  do 6 (split; [assumption|]).
  destruct (next_submission_saves_status 1%positive (true, false, false)
              leak_readings (lit "Scheduled Cycle") (lit "Weekly check")
              1741953660 later leak_session 0%nat leak_event H1 H2 H3 H4 H5 H6)
    as (saved & Hl & _ & _ & Hs).
  exists saved. split; [exact Hl | exact Hs].
Defined.

(** ** Which event a todo is matched with *)

(** X12. On a store whose events all have a string as details, the todo
    loop matches a todo with the first event, in list order (the newest
    first), whose details contain the todo's event text, and with none
    when no details contain it. An empty event text is contained in every
    string, so it matches the first event of the store. *)
Theorem matching_event_is_first (x : pystr)
    (h : gmap loc (gmap (list N) pyval)) (evs : list loc) :
  Forall (has_details h) evs →
  ∃ m, matching_event x h evs = Ok m
       ∧ match m with
         | Some e =>
             ∃ i s, evs !! i = Some e
                    ∧ deref h e !! lit "details" = Some (PStr s)
                    ∧ contains x s = true
                    ∧ ∀ j e' s', (j < i)%nat → evs !! j = Some e' →
                        deref h e' !! lit "details" = Some (PStr s') →
                        contains x s' = false
         | None =>
             ∀ e s, e ∈ evs → deref h e !! lit "details" = Some (PStr s) →
                    contains x s = false
         end
       ∧ (x = [] → m = head evs).
Proof.
  induction 1 as [|e evs [s Hs] _ IH].
  - exists None. split; [done|]. split; [|done].
    intros e s He. by apply not_elem_of_nil in He.
  - cbn [matching_event]. unfold getitem. rewrite Hs. cbn [mbind result_bind py_in].
    destruct (contains x s) eqn:Hc.
    + exists (Some e). split; [done|]. split; [|done].
      exists 0%nat, s. repeat split; try done. intros j e' s' Hj. lia.
    + destruct IH as (m & -> & Hm & Hx). exists m. split; [done|]. split.
      * destruct m as [e1|].
        -- destruct Hm as (i & s1 & Hi & Hs1 & Hc1 & Hfirst).
           exists (S i), s1. repeat split; try done.
           intros [|j] e' s' Hj Hj' Hd'.
           ++ cbn in Hj'. congruence.
           ++ eapply (Hfirst j); [lia|done|done].
        -- intros e' s' [->|He']%elem_of_cons Hd'.
           ++ congruence.
           ++ by eapply Hm.
      * intros ->. by destruct s.
Qed.

Lemma matching_event_is_first_witness :
  Forall (has_details (heap leak_session)) (events leak_session)
  ∧ matching_event [] (heap leak_session) (events leak_session)
    = Ok (Some 1%positive).
Proof.
  pose proof leak_session_has_details as H.
  split; [exact H|].
  destruct (matching_event_is_first [] (heap leak_session) (events leak_session) H)
    as (m & -> & _ & Hm).
  by rewrite (Hm eq_refl).
Defined.

Lemma event_line_ok (format : pyval → pystr)
    (h : gmap loc (gmap (list N) pyval)) (e : loc) :
  has_prompt_keys h e → ∃ t, event_line format (deref h e) = Ok t.
Proof.
  intros ([ty Hty] & [d Hd] & [s Hs]). unfold event_line, getitem.
  rewrite Hty, Hd, Hs. by eexists.
Qed.

Lemma event_line_KeyError (format : pyval → pystr)
    (h : gmap loc (gmap (list N) pyval)) (e : loc) :
  ¬ has_prompt_keys h e → event_line format (deref h e) = Raise KeyError.
Proof.
  intros Hn. unfold event_line, getitem.
  destruct (deref h e !! lit "type") as [ty|] eqn:Hty; [|done].
  destruct (deref h e !! lit "details") as [d|] eqn:Hd; [|done].
  destruct (deref h e !! lit "status") as [s|] eqn:Hs; [|done].
  destruct Hn. unfold has_prompt_keys. rewrite Hty, Hd, Hs. by repeat split.
Qed.

Lemma events_text_ok (format : pyval → pystr)
    (h : gmap loc (gmap (list N) pyval)) (evs : list loc) :
  Forall (has_prompt_keys h) (take 10 evs) →
  ∃ t, events_text format h evs = Ok t.
Proof.
  unfold events_text. generalize (take 10 evs). intros l Hl.
  assert (H : ∃ lines, mapM (λ e, event_line format (deref h e)) l = Ok lines).
  { induction Hl as [|e l He _ [lines IH]]; [by exists []|].
    destruct (event_line_ok format h e He) as [t Ht].
    cbn [mapM]. rewrite Ht. cbn [mbind result_bind]. rewrite IH. by eexists. }
  destruct H as [lines ->]. by eexists.
Qed.

Lemma events_text_KeyError (format : pyval → pystr)
    (h : gmap loc (gmap (list N) pyval)) (evs : list loc) :
  Exists (λ e, ¬ has_prompt_keys h e) (take 10 evs) →
  events_text format h evs = Raise KeyError.
Proof.
  unfold events_text. generalize (take 10 evs). intros l Hl.
  assert (H : mapM (λ e, event_line format (deref h e)) l = Raise KeyError).
  { induction Hl as [e l He|e l _ IH]; cbn [mapM].
    - by rewrite (event_line_KeyError format h e He).
    - destruct (event_line format (deref h e)) as [t|err] eqn:Et.
      + cbn [mbind result_bind]. by rewrite IH.
      + destruct (decide (has_prompt_keys h e)) as [Hk|Hk].
        * destruct (event_line_ok format h e Hk) as [t Ht]. congruence.
        * rewrite (event_line_KeyError format h e Hk) in Et. by injection Et as <-. }
  by rewrite H.
Qed.

(** A first event whose details are no container stops the loop at the
    first line that qualifies. *)
Lemma update_todos_TypeError (env : nat → Z * datetime) (text : pystr)
    (st : session_state) (e : loc) (rest : list loc) (v : pyval) :
  events st = e :: rest →
  deref (heap st) e !! lit "details" = Some v →
  not_a_container v →
  Exists (λ line, qualifies line = true) (splitlines text) →
  update_todos env (Some text) st = Raise TypeError.
Proof.
  intros He Hd Hv Hex.
  assert (Hin : ∀ x, py_in x v = Raise TypeError) by (by destruct v).
  assert (Hp : ∀ lines i acc,
             Exists (λ line, qualifies line = true) lines →
             parse_lines env i lines acc st = Raise TypeError).
  { induction lines as [|line lines IH]; intros i acc Hl; [by inversion Hl|].
    cbn [parse_lines]. destruct (qualifies line) eqn:Hq.
    - destruct (qualifies_three_parts line Hq) as (p0 & p1 & p2 & r & Hsplit).
      rewrite (todo_fields_ok _ _ _ _ _ Hsplit). cbn [mbind result_bind].
      rewrite He. cbn [matching_event]. unfold getitem. rewrite Hd.
      cbn [mbind result_bind]. by rewrite Hin.
    - apply IH. inversion Hl; [congruence | done]. }
  unfold update_todos. cbn [truthy].
  destruct (bool_decide_reflect (text = [])) as [->|Ht]; [by inversion Hex|].
  cbn [negb]. by rewrite Hp.
Qed.

(** X13. The refresh of the todo list, with a key and a store that is not
    empty. If one of the first ten events lacks its type, details or
    status, building the prompt raises KeyError, whatever the service
    would answer. If they all have the three keys, the prompt is built
    and sent; if then the details of the first event are no string, list
    or dict ([null] in an events file written elsewhere), every answer
    with a line that qualifies makes the refresh raise TypeError, at
    [event_part in e['details']], and no todo of the answer is taken
    over. *)
Theorem refresh_stops_on_details_without_text
    (format : pyval → pystr)
    (post : pystr → pystr → pystr + http_response)
    (str_e : http_response → pystr)
    (env : nat → Z * datetime) (key : pystr) (st : session_state) :
  key ≠ [] →
  events st ≠ [] →
  (Exists (λ e, ¬ has_prompt_keys (heap st) e) (take 10 (events st)) →
   refresh_todos format post str_e env (Some key) st = Raise KeyError)
  ∧ (Forall (has_prompt_keys (heap st)) (take 10 (events st)) →
     ∃ t,
       events_text format (heap st) (events st) = Ok t
       ∧ ∀ text e v,
           head (events st) = Some e →
           deref (heap st) e !! lit "details" = Some v →
           not_a_container v →
           call_gemini_api post str_e (todo_prompt t) (Some key) = PStr text →
           Exists (λ line, qualifies line = true) (splitlines text) →
           refresh_todos format post str_e env (Some key) st
           = Raise TypeError).
Proof.
  intros Hkey Hev.
  assert (Hguard : ∀ t,
             events_text format (heap st) (events st) = t →
             refresh_todos format post str_e env (Some key) st
             = t ≫= λ text,
                 match call_gemini_api post str_e (todo_prompt text) (Some key) with
                 | PStr ai_todo_text => update_todos env (Some ai_todo_text) st
                 | PNone => update_todos env None st
                 | v => if truthy v then Raise AttributeError else Ok st
                 end).
  { intros t <-. unfold refresh_todos. cbn [truthy].
    by rewrite !bool_decide_eq_false_2 by done. }
  split.
  - intros Hex. rewrite (Hguard _ (events_text_KeyError format _ _ Hex)). done.
  - intros Hall. destruct (events_text_ok format _ _ Hall) as [t Ht].
    exists t. split; [exact Ht|].
    intros text e v Hhd Hd Hv Hcall Hq.
    rewrite (Hguard _ Ht). cbn [mbind result_bind]. rewrite Hcall.
    destruct (events st) as [|e' rest] eqn:He; [done|].
    injection Hhd as ->.
    by apply (update_todos_TypeError env text st e rest v).
Qed.

Lemma refresh_stops_on_details_without_text_witness :
  lit "sk-key" ≠ []
  ∧ events null_details_session ≠ []
  ∧ events_text format_str_or_none (heap null_details_session)
      (events null_details_session)
    = Ok (lit "Incident Flag: None (Status: Pending)")
  ∧ refresh_todos format_str_or_none (answering_service example_answer)
      (λ _, []) clock_readings (Some (lit "sk-key")) null_details_session
    = Raise TypeError.
Proof.
  assert (H1 : lit "sk-key" ≠ []) by discriminate.
  assert (H2 : events null_details_session ≠ []) by discriminate.
  assert (H3 : events_text format_str_or_none (heap null_details_session)
                 (events null_details_session)
               = Ok (lit "Incident Flag: None (Status: Pending)"))
    by (vm_compute; reflexivity).
  split; [exact H1|]. split; [exact H2|]. split; [exact H3|].
  destruct (refresh_stops_on_details_without_text format_str_or_none
              (answering_service example_answer) (λ _, []) clock_readings
              (lit "sk-key") null_details_session H1 H2) as [_ Hsent].
  destruct Hsent as (t & Ht & Hstop).
  { apply Forall_cons. split; [|apply Forall_nil_2].
    split; [|split]; vm_compute; eexists; reflexivity. }
  rewrite H3 in Ht. injection Ht as <-.
  apply (Hstop example_answer 1%positive PNone).
  - reflexivity.
  - vm_compute. reflexivity.
  - exact I.
  - vm_compute. reflexivity.
  - apply Exists_cons_hd. vm_compute. reflexivity.
Defined.

(** ** The check boxes of the todo list *)

Lemma json_ok_list_insert l i y :
  json_ok (PList l) = true → json_ok y = true →
  json_ok (PList (<[i := y]> l)) = true.
Proof.
  cbn [json_ok]. revert i. induction l as [|x l IH]; intros i Hl Hy; [done|].
  cbn [forallb] in Hl. apply andb_prop in Hl as [Hx Hl].
  destruct i as [|i].
  - change (json_ok y && forallb json_ok l = true). by rewrite Hy, Hl.
  - change (json_ok x && forallb json_ok (<[i:=y]> l) = true).
    by rewrite Hx, IH.
Qed.

Lemma json_ok_list_lookup l i x :
  json_ok (PList l) = true → l !! i = Some x → json_ok x = true.
Proof.
  cbn [json_ok]. rewrite forallb_forall. intros H Hi. apply H.
  apply list_elem_of_In. by eapply list_elem_of_lookup_2.
Qed.

(** X14. Ticking or unticking the box of the todo at position [idx] sets
    the [done] field of that todo and leaves its other fields and the other
    todos as they are; the whole list is written to the todos file, from
    which [load_todos] returns it; doing it again with the same value
    changes nothing more. *)
Theorem set_done_saves (idx : nat) (checked : bool) (st : session_state)
    (l : list pyval) (m : gmap (list N) pyval) :
  todos st = PList l →
  l !! idx = Some (PDict m) →
  json_ok (PList l) = true →
  let st' := (set_done idx checked st).1 in
  (set_done idx checked st).2 = Ok tt
  ∧ todos st' = PList (<[idx := PDict (<[lit "done" := PBool checked]> m)]> l)
  ∧ (∀ j, j ≠ idx →
       <[idx := PDict (<[lit "done" := PBool checked]> m)]> l !! j = l !! j)
  ∧ (∀ k, k ≠ lit "done" →
       <[lit "done" := PBool checked]> m !! k = m !! k)
  ∧ load_todos (files st') = todos st'
  ∧ (set_done idx checked st').1 = st'
  ∧ heap st' = heap st ∧ events st' = events st ∧ alerts st' = alerts st.
Proof.
  intros Ht Hi Hok. cbn zeta.
  assert (Hok' : json_ok (PList (<[idx := PDict (<[lit "done" := PBool checked]> m)]> l))
                 = true).
  { apply json_ok_list_insert; [done|]. apply json_ok_dict. intros k v.
    rewrite lookup_insert. case_decide; [by intros [= <-]|].
    apply json_ok_dict. by eapply json_ok_list_lookup. }
  assert (E : set_done idx checked st
              = (mk_state (heap st) (events st) (orchestrator_log st) (alerts st)
                   (PList (<[idx := PDict (<[lit "done" := PBool checked]> m)]> l))
                   (<[TODOS_FILE
                      := Doc (PList (<[idx := PDict (<[lit "done" := PBool checked]> m)]> l))]>
                      (files st)), Ok tt)).
  { unfold set_done. rewrite Ht, Hi. unfold save_todos, json_dump_to. by rewrite Hok'. }
  rewrite E. cbn [fst snd heap events alerts todos files].
  split; [done|]. split; [done|].
  split; [intros j Hj; by apply list_lookup_insert_ne|].
  split; [intros k Hk; by apply lookup_insert_ne|].
  split; [unfold load_todos, open_read; by rewrite lookup_insert_eq|].
  split; [|done].
  unfold set_done. cbn [todos files heap events orchestrator_log alerts].
  rewrite list_lookup_insert_eq by (by eapply lookup_lt_Some).
  unfold save_todos, json_dump_to.
  rewrite list_insert_insert_eq, insert_insert_eq. rewrite Hok'.
  cbn [fst]. by rewrite insert_insert_eq.
Qed.

Lemma set_done_saves_witness :
  todos alert_session
  = PList [new_todo (lit "Pump leak") (lit "High") (lit "Inspect valve");
           new_todo (lit "Sensor drift") (lit "Low") (lit "Recalibrate")]
  ∧ load_todos (files (set_done 1 true alert_session).1)
    = todos (set_done 1 true alert_session).1.
Proof.
  assert (H1 : todos alert_session
               = PList [new_todo (lit "Pump leak") (lit "High") (lit "Inspect valve");
                        new_todo (lit "Sensor drift") (lit "Low") (lit "Recalibrate")])
    by reflexivity.
  split; [exact H1|].
  refine (proj1 (proj2 (proj2 (proj2 (proj2
    (set_done_saves 1 true alert_session _ _ H1 eq_refl _)))))).
  cbn [json_ok forallb]. by rewrite !new_todo_json_ok.
Defined.

(** ** The completion service *)

Lemma first_choice_of_content body c :
  first_choice_content body c → first_choice body = Ok c.
Proof.
  intros (m & choice & message & rest & -> & Hc & Hm & Hcont).
  unfold first_choice. cbn [py_in mbind result_bind].
  rewrite bool_decide_eq_true_2 by (by rewrite Hc).
  cbn [getitem_str]. unfold getitem. rewrite Hc. cbn [mbind result_bind py_len length].
  rewrite bool_decide_eq_true_2 by lia.
  cbn [getitem_0 index lookup list_lookup mbind result_bind getitem_str].
  unfold getitem. rewrite Hm. cbn [mbind result_bind getitem_str].
  unfold getitem. by rewrite Hcont.
Qed.

Lemma first_choice_cases body :
  (∃ c, first_choice body = Ok c
        ∧ (first_choice_content body c
           ∨ c = PStr (lit "No response generated")))
  ∨ ∃ e, first_choice body = Raise e.
Proof.
  unfold first_choice.
  destruct body as [| | | |s| |l|m]; cbn [py_in mbind result_bind];
    try (right; by eexists).
  - destruct (contains (lit "choices") s); [right; by eexists|].
    left. eexists. split; [reflexivity | by right].
  - destruct (existsb _ l); [right; by eexists|].
    left. eexists. split; [reflexivity | by right].
  - destruct (bool_decide_reflect (is_Some (m !! lit "choices"))) as [[ch Hch]|Hn];
      [|left; eexists; split; [reflexivity | by right]].
    cbn [getitem_str]. unfold getitem. rewrite Hch. cbn [mbind result_bind].
    destruct ch as [| | | |s| |l|m']; cbn [py_len mbind result_bind];
      try (right; by eexists).
    + destruct (bool_decide (0 < length s)%nat);
        [|left; eexists; split; [reflexivity | by right]].
      cbn [getitem_0]. destruct (index s 0) as [c|]; cbn; right; by eexists.
    + destruct l as [|c0 rest]; cbn [length].
      { rewrite bool_decide_eq_false_2 by lia.
        left. eexists. split; [reflexivity | by right]. }
      rewrite bool_decide_eq_true_2 by lia.
      cbn [getitem_0 index lookup list_lookup mbind result_bind].
      destruct c0 as [| | | | | | |choice]; cbn [getitem_str];
        try (right; by eexists).
      unfold getitem.
      destruct (choice !! lit "message") as [msg|] eqn:Hmsg;
        [|right; by eexists].
      cbn [mbind result_bind].
      destruct msg as [| | | | | | |message]; cbn [getitem_str];
        try (right; by eexists).
      unfold getitem.
      destruct (message !! lit "content") as [c|] eqn:Hcont;
        [|right; by eexists].
      left. exists c. split; [reflexivity|]. left.
      by exists m, choice, message, rest.
    + destruct (bool_decide (0 < size m')%nat);
        [right; by eexists | left; eexists; split; [reflexivity | by right]].
Qed.

(** X15. [call_gemini_api] never raises and sends nothing without a key:
    with no key or an empty one it returns None. With a key it returns the
    content of the message of the first choice when the service answers
    with status 200 and a body of that shape; in every other case it
    returns a string that is "No response generated" or begins with
    "API Error: " or "Request Error: ", and for a status other than 200
    that string is "API Error: ", the status, " - " and the text of the
    response. *)
Theorem call_gemini_api_result
    (post : pystr → pystr → pystr + http_response)
    (str_e : http_response → pystr) (prompt : pystr) :
  call_gemini_api post str_e prompt None = PNone
  ∧ call_gemini_api post str_e prompt (Some []) = PNone
  ∧ ∀ key, key ≠ [] →
      (∀ r body c, post prompt key = inr r → status_code r = 200 →
                   response_json r = inr body → first_choice_content body c →
                   call_gemini_api post str_e prompt (Some key) = c)
      ∧ (∀ r, post prompt key = inr r → status_code r ≠ 200 →
              call_gemini_api post str_e prompt (Some key)
              = PStr (lit "API Error: " ++ str_of_int (status_code r)
                        ++ lit " - " ++ response_text r))
      ∧ ((∃ r body, post prompt key = inr r ∧ status_code r = 200
                    ∧ response_json r = inr body
                    ∧ first_choice_content body
                        (call_gemini_api post str_e prompt (Some key)))
         ∨ call_gemini_api post str_e prompt (Some key)
           = PStr (lit "No response generated")
         ∨ (∃ t, call_gemini_api post str_e prompt (Some key)
                 = PStr (lit "API Error: " ++ t))
         ∨ (∃ t, call_gemini_api post str_e prompt (Some key)
                 = PStr (lit "Request Error: " ++ t))).
Proof.
  split; [done|]. split; [done|]. intros key Hkey.
  unfold call_gemini_api. cbn [truthy].
  rewrite bool_decide_eq_false_2 by done. cbn [negb].
  split; [|split].
  - intros r body c -> H200 Hj Hc.
    rewrite (proj2 (Z.eqb_eq _ _) H200), Hj.
    by rewrite (first_choice_of_content _ _ Hc).
  - intros r -> Hne. by rewrite (proj2 (Z.eqb_neq _ _) Hne).
  - destruct (post prompt key) as [e|r]; [right; right; right; by eexists|].
    destruct (Z.eqb_spec (status_code r) 200) as [H200|Hne];
      [|right; right; left; by eexists].
    destruct (response_json r) as [e|body] eqn:Hj;
      [right; right; right; by eexists|].
    destruct (first_choice_cases body) as [(c & -> & [Hc| ->])|[e ->]].
    + left. by exists r, body.
    + right. by left.
    + right; right; right. by eexists.
Qed.

Lemma call_gemini_api_result_witness :
  lit "sk-key" ≠ []
  ∧ call_gemini_api busy_service (λ _, []) (lit "Analyze") (Some (lit "sk-key"))
    = PStr (lit "API Error: 429 - rate limit").
Proof.
  assert (H : lit "sk-key" ≠ []) by done.
  split; [exact H|].
  destruct (proj2 (proj2 (call_gemini_api_result busy_service (λ _, [])
                            (lit "Analyze"))) (lit "sk-key") H) as (_ & Herr & _).
  rewrite (Herr _ eq_refl); [reflexivity|]. cbn. lia.
Defined.

(** ** Loading is all or nothing *)

Lemma mapM_restore_time_raise (parse : pystr → result datetime)
    (l : list pyval) :
  Exists (λ v, ∃ e, restore_time_with parse v = Raise e) l →
  ∃ e, mapM (restore_time_with parse) l = Raise e.
Proof.
  induction 1 as [v l [e He]|v l _ [e IH]]; cbn [mapM].
  - rewrite He. by eexists.
  - destruct (restore_time_with parse v); cbn [mbind result_bind]; [|by eexists].
    rewrite IH. by eexists.
Qed.

Lemma unreadable_event_raises (parse : pystr → result datetime) (v : pyval) :
  unreadable_event parse v → ∃ e, restore_time_with parse v = Raise e.
Proof.
  intros [Hn|(m & s & e & -> & Ht & He)].
  - destruct v; try by eexists. by destruct (Hn m).
  - cbn [restore_time_with]. rewrite Ht, He. by eexists.
Qed.

(** [load_events] is [load_events_with] at the parser of this model. *)
Lemma load_events_with_fromisoformat (fs : gmap (list N) file) :
  load_events_with fromisoformat fs = load_events fs.
Proof. reflexivity. Qed.

(** X16. [load_events] keeps no part of a file it cannot read in full:
    when the file holds a list with one element that is no dict, or whose
    time is a string that [datetime.fromisoformat] rejects, the result is
    the empty list, whatever the other elements are. This holds for every
    behaviour [parse] of [datetime.fromisoformat]. *)
Theorem load_events_all_or_nothing (parse : pystr → result datetime)
    (fs : gmap (list N) file) (l : list pyval) :
  fs !! EVENTS_FILE = Some (Doc (PList l)) →
  Exists (unreadable_event parse) l →
  load_events_with parse fs = PList [].
Proof.
  intros Hf Hex. unfold load_events_with, open_read.
  rewrite Hf. cbn [mbind result_bind json_load restore_times_with].
  destruct (mapM_restore_time_raise parse l) as [e He].
  { eapply Exists_impl; [exact Hex|]. apply unreadable_event_raises. }
  by rewrite He.
Qed.

Lemma load_events_all_or_nothing_witness :
  edited_file !! EVENTS_FILE
  = Some (Doc (PList [PDict (serializable_copy leak_event);
                      PDict (<[lit "time" := PStr (lit "yesterday")]> leak_event)]))
  ∧ Exists (unreadable_event fromisoformat)
      [PDict (serializable_copy leak_event);
       PDict (<[lit "time" := PStr (lit "yesterday")]> leak_event)]
  ∧ load_events_with fromisoformat edited_file = PList [].
Proof.
  assert (H1 : edited_file !! EVENTS_FILE
               = Some (Doc (PList [PDict (serializable_copy leak_event);
                                   PDict (<[lit "time" := PStr (lit "yesterday")]>
                                            leak_event)])))
    by apply lookup_singleton_eq.
  assert (H2 : Exists (unreadable_event fromisoformat)
                 [PDict (serializable_copy leak_event);
                  PDict (<[lit "time" := PStr (lit "yesterday")]> leak_event)]).
  { apply Exists_cons_tl, Exists_cons_hd. right.
    exists (<[lit "time" := PStr (lit "yesterday")]> leak_event),
           (lit "yesterday"), ValueError.
    split; [done|]. split; [apply lookup_insert_eq | vm_compute; reflexivity]. }
  split; [exact H1|]. split; [exact H2|].
  exact (load_events_all_or_nothing fromisoformat edited_file _ H1 H2).
Defined.
